(** * SolarMQTT: the build configuration header and the plugin entry header

    The repository's C sources are two headers:

    - [shared/mosquitto/config.h], the feature and compatibility profile
      under which libmosquitto is compiled, and
    - [PluginSolarMQTT.h], which declares the plugin's Lua entry point.

    Both are programs of the C preprocessor.  They are embedded here as
    functions on the state of a translation unit (its macro table and the
    declarations seen so far), built from one combinator per directive, so
    that each definition below can be read side by side with the header it
    comes from. *)

From Stdlib Require Import NArith String Ascii List Lia.
From stdpp Require Import gmap strings list fin_maps.

Local Open Scope string_scope.

(** ** Preprocessing tokens, macros, declarations *)

Inductive token :=
| TId (x : string)        (* identifier, keywords included *)
| TNum (n : N)            (* integer pp-number *)
| TLParen
| TRParen
| TComma
| TPunct (p : string).    (* any other punctuator *)

(** [#define N body] is object-like, [#define N(p1, ..) body] is
    function-like. *)
Inductive macro :=
| ObjMacro (body : list token)
| FunMacro (params : list string) (body : list token).

Inductive ctype :=
| CInt
| CNamed (n : string)
| CPtr (t : ctype).

(** Declarations are recorded as the header writes them, before macro
    replacement: [d_specs] keeps leading specifier macros such as
    [CORONA_EXPORT] by name. *)
Inductive decl :=
| DTypedef (t : ctype) (name : string)
| DFun (d_specs : list string) (d_ret : ctype) (d_name : string)
       (d_params : list (ctype * string)).

Record tu := mkTu {
  macros : gmap string macro;
  decls  : list decl
}.

(** ** One-step macro replacement *)

Fixpoint param_arg (x : string) (params : list string)
    (args : list (list token)) : option (list token) :=
  match params, args with
  | p :: ps, a :: rest => if String.eqb x p then Some a else param_arg x ps rest
  | _, _ => None
  end.

Definition subst_token (params : list string) (args : list (list token))
    (t : token) : list token :=
  match t with
  | TId x => match param_arg x params args with
             | Some a => a
             | None => [t]
             end
  | _ => [t]
  end.

(** The replacement list of a macro invocation: the body with each
    parameter replaced by the corresponding argument.  An object-like macro
    takes no argument list; a function-like one needs as many arguments as
    it has parameters.  (The operators [#] and [##] occur in neither
    header and are not modelled.) *)
Definition replacement (m : macro) (args : list (list token))
    : option (list token) :=
  match m with
  | ObjMacro body =>
      match args with [] => Some body | _ => None end
  | FunMacro params body =>
      if Nat.eqb (length params) (length args)
      then Some (concat (map (subst_token params args) body))
      else None
  end.

(** What an invocation of the macro named [x] is replaced by in the
    translation unit [s] ([args] is empty for an object-like macro). *)
Definition expand_once (s : tu) (x : string) (args : list (list token))
    : option (list token) :=
  m ← macros s !! x; replacement m args.

(** ** Operands of [#if]

    The value the preprocessor gives to an identifier inside an [#if]
    expression.  An identifier that is not an object-like macro is left
    alone by macro replacement and then counts as 0.  An object-like macro
    is replaced by its body and the result is rescanned with the macro
    itself no longer available, which is what [delete] does here.  Bodies
    other than a single number or a single identifier are outside this
    model and give [None], as does a malformed expression.  A number
    stands for its value as written; [if_value] below brings it into the
    range of the preprocessor's integer type where it is compared. *)
Fixpoint operand_value (fuel : nat) (env : gmap string macro) (x : string)
    : option N :=
  match env !! x with
  | None => Some 0%N
  | Some (FunMacro _ _) => Some 0%N
  | Some (ObjMacro [TNum v]) => Some v
  | Some (ObjMacro [TId y]) =>
      match fuel with
      | O => None
      | S fuel' => operand_value fuel' (delete x env) y
      end
  | Some (ObjMacro _) => None
  end.

(** Every rescan removes one macro from the table, so [size env] steps
    are enough. *)
Definition if_operand (env : gmap string macro) (x : string) : option N :=
  operand_value (size env) env x.

(** ** Directives as state transformers *)

Definition pp := tu -> option tu.
Definition cond := tu -> option bool.

Definition pp_skip : pp := fun s => Some s.

(** A group of lines is processed top to bottom; the first failure
    aborts the translation. *)
Fixpoint pp_group (ds : list pp) : pp :=
  match ds with
  | [] => pp_skip
  | d :: rest => fun s => d s ≫= pp_group rest
  end.

(** [#define]: a later definition of the same name replaces the earlier
    one (compilers diagnose a change of body and go on with the new one). *)
Definition define (x : string) (m : macro) : pp :=
  fun s => Some (mkTu (<[x := m]> (macros s)) (decls s)).

Definition declare (d : decl) : pp :=
  fun s => Some (mkTu (macros s) (decls s ++ [d])).

Definition is_defined (x : string) (s : tu) : bool :=
  match macros s !! x with Some _ => true | None => false end.

Definition c_defined (x : string) : cond := fun s => Some (is_defined x s).
Definition c_not (c : cond) : cond := fun s => negb <$> c s.
Definition c_and (c1 c2 : cond) : cond :=
  fun s => b1 ← c1 s; b2 ← c2 s; Some (b1 && b2).
Definition c_or (c1 c2 : cond) : cond :=
  fun s => b1 ← c1 s; b2 ← c2 s; Some (b1 || b2).

(** [#if] expressions are evaluated in the widest integer type, which has
    64 bits.  A literal that does not fit is diagnosed and then taken
    modulo 2^64; a literal that fits stands for itself.  No operand here is
    negative, so signed and unsigned comparison agree on the result. *)
Definition uintmax_modulus : N := 18446744073709551616.

Definition if_value (v : N) : N := (v mod uintmax_modulus)%N.

(** [X < k] for an identifier [X] and an integer literal [k]. *)
Definition c_lt (x : string) (k : N) : cond :=
  fun s =>
    v ← if_operand (macros s) x;
    Some (N.ltb (if_value v) (if_value k)).

(** [#if c] ... [#else] ... [#endif] *)
Definition pp_if (c : cond) (thn els : list pp) : pp :=
  fun s => b ← c s; if b : bool then pp_group thn s else pp_group els s.

Definition pp_ifdef (x : string) (thn : list pp) : pp :=
  pp_if (c_defined x) thn [].
Definition pp_ifndef (x : string) (thn : list pp) : pp :=
  pp_if (c_not (c_defined x)) thn [].

(** Empty object-like macro: [#define X]. *)
Definition flag : macro := ObjMacro [].
(** [#define X Y] for a single identifier [Y]. *)
Definition alias (y : string) : macro := ObjMacro [TId y].

(** ** The two headers *)

Section Headers.

(** System and host headers pulled in with [#include <...>] are not part
    of the repository; their effect on the translation unit is a
    parameter. *)
Variable sys_header : string -> pp.

Definition include_sys (h : string) : pp := sys_header h.

(** *** config.h *)

(** Lines 13-17. *)
Definition platform_options : pp :=
  pp_if (c_defined "__APPLE__")
    [ define "__DARWIN_C_SOURCE" flag ]
    [ pp_if (c_or (c_defined "__FreeBSD__") (c_defined "__NetBSD__"))
        [ define "HAVE_NETINET_IN_H" flag ]
        [] ].

(** Lines 23-32.  The six [#undef] lines between the two definitions are
    inside comments, so they are not directives. *)
Definition feature_flags : pp :=
  pp_group
    [ define "WITH_TLS" flag;
      define "WITH_THREADING" flag ].

(** Lines 38-50. *)
Definition compat_msvc : pp :=
  pp_if (c_and (c_defined "_MSC_VER") (c_lt "_MSC_VER" 1900))
    [ define "snprintf" (alias "sprintf_s");
      define "EPROTO" (alias "ECONNABORTED");
      pp_ifndef "ECONNABORTED"
        [ define "ECONNABORTED" (alias "WSAECONNABORTED") ];
      pp_ifndef "ENOTCONN"
        [ define "ENOTCONN" (alias "WSAENOTCONN") ];
      pp_ifndef "ECONNREFUSED"
        [ define "ECONNREFUSED" (alias "WSAECONNREFUSED") ] ]
    [].

(** Lines 52-61. *)
Definition compat_win32 : pp :=
  pp_ifdef "WIN32"
    [ define "strcasecmp" (alias "_stricmp");
      define "strncasecmp" (alias "_strnicmp");
      define "strtok_r" (alias "strtok_s");
      define "strerror_r"
        (FunMacro ["e"; "b"; "l"]
           [TId "strerror_s"; TLParen; TId "b"; TComma; TId "l"; TComma;
            TId "e"; TRParen]);
      pp_ifdef "_MSC_VER"
        [ include_sys "basetsd.h";
          declare (DTypedef (CNamed "SSIZE_T") "ssize_t") ] ].

(** Lines 67-68. *)
Definition uthash_overrides : pp :=
  pp_group
    [ define "uthash_malloc"
        (FunMacro ["sz"]
           [TId "mosquitto_malloc"; TLParen; TId "sz"; TRParen]);
      define "uthash_free"
        (FunMacro ["ptr"; "sz"]
           [TId "mosquitto_free"; TLParen; TId "ptr"; TRParen]) ].

(** Lines 74-86. *)
Definition misc : pp :=
  pp_group
    [ define "UNUSED"
        (FunMacro ["A"]
           [TLParen; TId "void"; TRParen; TLParen; TId "A"; TRParen]);
      pp_if (c_and (c_not (c_defined "ANDROID")) (c_not (c_defined "WIN32")))
        [ define "HAVE_PTHREAD_CANCEL" flag ]
        [];
      define "WS_IS_LWS" (ObjMacro [TNum 1]);
      define "WS_IS_BUILTIN" (ObjMacro [TNum 2]);
      define "BROKER_EXPORT" flag;
      define "TOPIC_HIERARCHY_LIMIT" (ObjMacro [TNum 200]) ].

(** The whole header, lines 6-88. *)
Definition config_h : pp :=
  pp_ifndef "CONFIG_H"
    [ define "CONFIG_H" flag;
      platform_options;
      feature_flags;
      compat_msvc;
      compat_win32;
      uthash_overrides;
      misc ].

(** *** PluginSolarMQTT.h *)

(** Line 15: [CORONA_EXPORT int luaopen_plugin_solarmqtt( lua_State *L );] *)
Definition luaopen_plugin_solarmqtt : decl :=
  DFun ["CORONA_EXPORT"] CInt "luaopen_plugin_solarmqtt"
       [(CPtr (CNamed "lua_State"), "L")].

(** Lines 8-17. *)
Definition PluginSolarMQTT_h : pp :=
  pp_ifndef "_PluginSolarMQTT_H__"
    [ define "_PluginSolarMQTT_H__" flag;
      include_sys "CoronaLua.h";
      include_sys "CoronaMacros.h";
      declare luaopen_plugin_solarmqtt ].

End Headers.

(** Every macro name that config.h tests or defines. *)
Definition config_names : list string :=
  [ "CONFIG_H"; "__APPLE__"; "__DARWIN_C_SOURCE"; "__FreeBSD__"; "__NetBSD__";
    "HAVE_NETINET_IN_H";
    "WITH_TLS"; "WITH_TLS_PSK"; "WITH_SRV"; "WITH_BROKER"; "WITH_WEBSOCKETS";
    "WITH_SOCKS"; "WITH_ADNS"; "WITH_THREADING";
    "_MSC_VER"; "snprintf"; "EPROTO"; "ECONNABORTED"; "ENOTCONN";
    "ECONNREFUSED";
    "WIN32"; "strcasecmp"; "strncasecmp"; "strtok_r"; "strerror_r";
    "uthash_malloc"; "uthash_free";
    "UNUSED"; "ANDROID"; "HAVE_PTHREAD_CANCEL"; "WS_IS_LWS"; "WS_IS_BUILTIN";
    "BROKER_EXPORT"; "TOPIC_HIERARCHY_LIMIT" ].

(** The optional features that the comments of lines 24-29 list as left
    out. *)
Definition disabled_features : list string :=
  [ "WITH_TLS_PSK"; "WITH_SRV"; "WITH_BROKER"; "WITH_WEBSOCKETS"; "WITH_SOCKS";
    "WITH_ADNS" ].

(** The errno names of lines 41-49 with the Winsock code each one falls
    back to. *)
Definition winsock_codes : list (string * string) :=
  [ ("ECONNABORTED", "WSAECONNABORTED");
    ("ENOTCONN", "WSAENOTCONN");
    ("ECONNREFUSED", "WSAECONNREFUSED") ].

(** ** The configuration surface of the client core *)

(** Modelled from the spec: the capability flags of section 6
    (Configuration surface), which the client core reads from the build
    configuration.  The core itself is not among the sources. *)
Record feature_profile := mkProfile {
  tls_enabled : bool;
  broker_mode_enabled : bool;
  websocket_transport_enabled : bool;
  socks_proxy_enabled : bool;
  async_dns_enabled : bool;
  threading_enabled : bool
}.

(** The profile a translation unit is compiled under: each flag is the
    presence of the WITH_ macro that config.h names for that feature. *)
Definition profile_of (s : tu) : feature_profile :=
  {| tls_enabled := is_defined "WITH_TLS" s;
     broker_mode_enabled := is_defined "WITH_BROKER" s;
     websocket_transport_enabled := is_defined "WITH_WEBSOCKETS" s;
     socks_proxy_enabled := is_defined "WITH_SOCKS" s;
     async_dns_enabled := is_defined "WITH_ADNS" s;
     threading_enabled := is_defined "WITH_THREADING" s |}.

Definition minimal_profile : feature_profile :=
  {| tls_enabled := true;
     broker_mode_enabled := false;
     websocket_transport_enabled := false;
     socks_proxy_enabled := false;
     async_dns_enabled := false;
     threading_enabled := true |}.

(** The value of an object-like macro used as an integer constant in
    program text. *)
Definition macro_constant (s : tu) (x : string) : option N :=
  body ← expand_once s x [];
  match body with
  | [TNum v] => Some v
  | _ => None
  end.

(** Segments of a topic string, split at every ['/']. *)
Fixpoint split_topic (t : string) : list string :=
  match t with
  | EmptyString => [EmptyString]
  | String c rest =>
      if Ascii.eqb c "/"
      then EmptyString :: split_topic rest
      else match split_topic rest with
           | seg :: segs => String c seg :: segs
           | [] => [String c EmptyString]
           end
  end.

Definition segment_count (t : string) : nat := length (split_topic t).

Fixpoint join_topic (segs : list string) : string :=
  match segs with
  | [] => EmptyString
  | [seg] => seg
  | seg :: rest => seg ++ String "/" (join_topic rest)
  end.

Inductive topic_verdict := TopicAccepted | InvalidTopic.

(** Modelled from the spec: the local topic validation of sections 6 and 7
    (Topic hierarchy limit; error kind InvalidTopic), which is not among
    the sources.  A topic is rejected when its number of slash-delimited
    segments exceeds the configured limit; the limit is read from the
    translation unit the core is compiled in. *)
Definition topic_hierarchy_check (s : tu) (t : string) : option topic_verdict :=
  limit ← macro_constant s "TOPIC_HIERARCHY_LIMIT";
  Some (if N.ltb limit (N.of_nat (segment_count t))
        then InvalidTopic else TopicAccepted).

(** ** The host's loader symbol *)

Definition dot_to_underscore (c : ascii) : ascii :=
  if Ascii.eqb c "." then "_"%char else c.

Fixpoint map_string (f : ascii -> ascii) (s : string) : string :=
  match s with
  | EmptyString => EmptyString
  | String c rest => String (f c) (map_string f rest)
  end.

Fixpoint has_char (c : ascii) (s : string) : bool :=
  match s with
  | EmptyString => false
  | String d rest => Ascii.eqb c d || has_char c rest
  end.

(** The comment of PluginSolarMQTT.h line 14 ties the declared function to
    [require "plugin.solarmqtt"].  The Lua host resolves a C module name to
    the symbol [luaopen_] followed by the name with every dot turned into
    an underscore.  Names carrying the host's ignore mark ['-'] are left
    out of this model. *)
Definition luaopen_symbol (modname : string) : option string :=
  if has_char "-" modname then None
  else Some ("luaopen_" ++ map_string dot_to_underscore modname).

(** ** Concrete platforms and stand-in system headers *)

(** Stand-ins for the three headers included with angle brackets, enough
    to run both repository headers on concrete translation units. *)
Definition sample_sys_header (h : string) : pp :=
  if String.eqb h "basetsd.h" then
    pp_group [ define "_BASETSD_H_" flag;
               declare (DTypedef (CNamed "LONG_PTR") "SSIZE_T") ]
  else if String.eqb h "CoronaLua.h" then
    pp_group [ define "_CoronaLua_H__" flag;
               declare (DTypedef (CNamed "struct lua_State") "lua_State") ]
  else if String.eqb h "CoronaMacros.h" then
    pp_group [ define "_CoronaMacros_H__" flag;
               define "CORONA_EXPORT" (ObjMacro [TId "extern"]) ]
  else fun _ => None.

Definition predefined (ms : list (string * macro)) : tu :=
  mkTu (list_to_map ms) [].

Definition linux_tu : tu :=
  predefined [ ("__linux__", ObjMacro [TNum 1]) ].

Definition macos_tu : tu :=
  predefined [ ("__APPLE__", ObjMacro [TNum 1]) ].

Definition android_tu : tu :=
  predefined [ ("__linux__", ObjMacro [TNum 1]); ("ANDROID", ObjMacro [TNum 1]) ].

(** Visual Studio 2013 ([_MSC_VER] 1800), Winsock error codes not yet
    mapped. *)
Definition msvc2013_tu : tu :=
  predefined [ ("_MSC_VER", ObjMacro [TNum 1800]); ("WIN32", flag) ].

(** Visual Studio 2015 ([_MSC_VER] 1900). *)
Definition msvc2015_tu : tu :=
  predefined [ ("_MSC_VER", ObjMacro [TNum 1900]); ("WIN32", flag) ].

(** The translation unit after config.h, resp. PluginSolarMQTT.h, with
    the stand-in system headers. *)
Definition after_config (s : tu) : tu :=
  default s (config_h sample_sys_header s).

Definition after_plugin (s : tu) : tu :=
  default s (PluginSolarMQTT_h sample_sys_header s).

(** A topic made of [n] slashes: [n + 1] empty segments. *)
Fixpoint slashes (n : nat) : string :=
  match n with
  | O => EmptyString
  | S n' => String "/" (slashes n')
  end.

Fixpoint count_slashes (t : string) : nat :=
  match t with
  | EmptyString => 0
  | String c rest =>
      (if Ascii.eqb c "/" then 1 else 0) + count_slashes rest
  end.

(** ** Frame conditions *)

(** A directive [preserves] a name when it leaves that name's entry in the
    macro table as it found it. *)
Definition preserves (p : pp) (x : string) : Prop :=
  forall s s', p s = Some s' -> macros s' !! x = macros s !! x.

(** A directive [establishes] a definition when the name has that
    definition after it, whatever it was before. *)
Definition establishes (p : pp) (x : string) (m : macro) : Prop :=
  forall s s', p s = Some s' -> macros s' !! x = Some m.

Definition first_inclusion (guard : string) (s : tu) : Prop :=
  macros s !! guard = None.

(** Compilers either leave _MSC_VER undefined or predefine it as an
    integer literal. *)
Definition numeric_msc_ver (s : tu) : Prop :=
  macros s !! "_MSC_VER" = None \/
  exists v, macros s !! "_MSC_VER" = Some (ObjMacro [TNum v]).

(** A directive [keeps_defined] a name when it cannot take a definition
    away: defined before, defined after. *)
Definition keeps_defined (p : pp) (x : string) : Prop :=
  forall s s', p s = Some s' -> is_defined x s = true -> is_defined x s' = true.

(** A directive is [silent] when it adds or removes no declaration. *)
Definition silent (p : pp) : Prop :=
  forall s s', p s = Some s' -> decls s' = decls s.

(** The names that stand after [#define] somewhere in config.h. *)
Definition config_defines : list string :=
  [ "CONFIG_H"; "__DARWIN_C_SOURCE"; "HAVE_NETINET_IN_H";
    "WITH_TLS"; "WITH_THREADING";
    "snprintf"; "EPROTO"; "ECONNABORTED"; "ENOTCONN"; "ECONNREFUSED";
    "strcasecmp"; "strncasecmp"; "strtok_r"; "strerror_r";
    "uthash_malloc"; "uthash_free";
    "UNUSED"; "HAVE_PTHREAD_CANCEL"; "WS_IS_LWS"; "WS_IS_BUILTIN";
    "BROKER_EXPORT"; "TOPIC_HIERARCHY_LIMIT" ].

(** The definitions of config.h that sit under no conditional other than
    the include guard (lines 7, 23, 32, 67, 68, 74, 81, 82, 84, 86). *)
Definition unconditional_defines : list (string * macro) :=
  [ ("CONFIG_H", flag);
    ("WITH_TLS", flag);
    ("WITH_THREADING", flag);
    ("uthash_malloc",
       FunMacro ["sz"] [TId "mosquitto_malloc"; TLParen; TId "sz"; TRParen]);
    ("uthash_free",
       FunMacro ["ptr"; "sz"]
         [TId "mosquitto_free"; TLParen; TId "ptr"; TRParen]);
    ("UNUSED",
       FunMacro ["A"]
         [TLParen; TId "void"; TRParen; TLParen; TId "A"; TRParen]);
    ("WS_IS_LWS", ObjMacro [TNum 1]);
    ("WS_IS_BUILTIN", ObjMacro [TNum 2]);
    ("BROKER_EXPORT", flag);
    ("TOPIC_HIERARCHY_LIMIT", ObjMacro [TNum 200]) ].

(** Line 59. *)
Definition ssize_t_typedef : decl := DTypedef (CNamed "SSIZE_T") "ssize_t".

Definition freebsd_tu : tu :=
  predefined [ ("__FreeBSD__", ObjMacro [TNum 14]) ].

(** MinGW: WIN32 without _MSC_VER. *)
Definition mingw_tu : tu :=
  predefined [ ("WIN32", ObjMacro [TNum 1]); ("__MINGW32__", ObjMacro [TNum 1]) ].

(** A build that passes [-D_MSC_VER=] with nothing after the equals sign. *)
Definition empty_msc_ver_tu : tu :=
  predefined [ ("_MSC_VER", flag) ].

(** A build that tries to set its own limits and feature macros on the
    command line. *)
Definition overriding_tu : tu :=
  predefined [ ("TOPIC_HIERARCHY_LIMIT", ObjMacro [TNum 50]);
               ("WITH_THREADING", ObjMacro [TNum 0]);
               ("MY_APP", flag) ].

(** A build whose _MSC_VER does not fit in 64 bits: 2^64 + 1800. *)
Definition oversized_msc_ver_tu : tu :=
  predefined [ ("_MSC_VER", ObjMacro [TNum 18446744073709553416]) ].

(** A system-header assignment under which nothing can be included. *)
Definition no_sys_header (h : string) : pp := fun _ => None.

(** * Properties *)

(** ** Inversion of the combinators *)

Lemma pp_group_nil s : pp_group [] s = Some s.
Proof. reflexivity. Qed.

Lemma pp_group_cons d ds s : pp_group (d :: ds) s = d s ≫= pp_group ds.
Proof. reflexivity. Qed.

Lemma pp_group_cons_inv d ds s s' :
  pp_group (d :: ds) s = Some s' ->
  exists s1, d s = Some s1 /\ pp_group ds s1 = Some s'.
Proof.
  rewrite pp_group_cons. destruct (d s) as [s1|] eqn:E; simpl; [|discriminate].
  intros H. exists s1. split; [reflexivity | exact H].
Qed.

Lemma pp_if_inv c thn els s s' :
  pp_if c thn els s = Some s' ->
  exists b : bool, c s = Some b /\
    (if b then pp_group thn s else pp_group els s) = Some s'.
Proof.
  unfold pp_if. destruct (c s) as [b|]; simpl; [|discriminate].
  intros H. exists b. split; [reflexivity | exact H].
Qed.

Lemma is_defined_true x s : is_defined x s = true <-> is_Some (macros s !! x).
Proof.
  unfold is_defined. destruct (macros s !! x); split; intros H;
    try reflexivity; try discriminate; eauto.
  destruct H as [? H]. discriminate.
Qed.

Lemma is_defined_false x s : is_defined x s = false <-> macros s !! x = None.
Proof.
  unfold is_defined. destruct (macros s !! x); split; intros H;
    try reflexivity; discriminate.
Qed.

Lemma is_defined_ext x s s' :
  macros s' !! x = macros s !! x -> is_defined x s' = is_defined x s.
Proof. unfold is_defined. intros ->. reflexivity. Qed.

(** ** The [#if] operand *)

Lemma operand_value_num fuel env x v :
  env !! x = Some (ObjMacro [TNum v]) -> operand_value fuel env x = Some v.
Proof. intros H. destruct fuel; simpl; rewrite H; reflexivity. Qed.

Lemma operand_value_undef fuel env x :
  env !! x = None -> operand_value fuel env x = Some 0%N.
Proof. intros H. destruct fuel; simpl; rewrite H; reflexivity. Qed.

Lemma if_operand_num env x v :
  env !! x = Some (ObjMacro [TNum v]) -> if_operand env x = Some v.
Proof. apply operand_value_num. Qed.

Lemma if_operand_undef env x :
  env !! x = None -> if_operand env x = Some 0%N.
Proof. apply operand_value_undef. Qed.

(** The fuel handed out by [if_operand] is never used up: with at least
    [size env] of it the result does not depend on the amount. *)
Lemma operand_value_fuel fuel :
  forall env x, size env <= fuel ->
    operand_value fuel env x = operand_value (size env) env x.
Proof.
  induction fuel as [|fuel IH]; intros env x Hle.
  - replace (size env) with 0 by lia. reflexivity.
  - destruct (env !! x) as [[body|ps body]|] eqn:E.
    + assert (Hsz : size env = S (size (delete x env))).
      { rewrite <- (insert_delete_id env x (ObjMacro body)) at 1 by exact E.
        apply map_size_insert_None, lookup_delete_eq. }
      rewrite Hsz. simpl. rewrite E.
      destruct body as [|[y|v| | | |p] [|t body]]; try reflexivity.
      apply IH. lia.
    + destruct (size env); simpl; rewrite E; reflexivity.
    + destruct (size env); simpl; rewrite E; reflexivity.
Qed.

(** ** Frame rules for the combinators *)

Lemma preserves_skip x : preserves pp_skip x.
Proof. intros s s' [= <-]. reflexivity. Qed.

Lemma preserves_define x y m : x <> y -> preserves (define y m) x.
Proof.
  intros Hne s s' [= <-]. simpl. apply lookup_insert_ne. congruence.
Qed.

Lemma preserves_declare x d : preserves (declare d) x.
Proof. intros s s' [= <-]. reflexivity. Qed.

Lemma preserves_group x ds :
  Forall (fun d => preserves d x) ds -> preserves (pp_group ds) x.
Proof.
  induction 1 as [|d ds Hd _ IH]; intros s s' H.
  - injection H as <-. reflexivity.
  - apply pp_group_cons_inv in H as (s1 & H1 & H2).
    rewrite (IH _ _ H2). apply (Hd _ _ H1).
Qed.

Lemma preserves_if x c thn els :
  Forall (fun d => preserves d x) thn ->
  Forall (fun d => preserves d x) els ->
  preserves (pp_if c thn els) x.
Proof.
  intros Ht He s s' H. apply pp_if_inv in H as ([|] & _ & H).
  - apply (preserves_group _ _ Ht _ _ H).
  - apply (preserves_group _ _ He _ _ H).
Qed.

Lemma establishes_define x m : establishes (define x m) x m.
Proof. intros s s' [= <-]. simpl. apply lookup_insert_eq. Qed.

Lemma establishes_here d ds x m :
  establishes d x m -> preserves (pp_group ds) x ->
  establishes (pp_group (d :: ds)) x m.
Proof.
  intros Hd Hds s s' H. apply pp_group_cons_inv in H as (s1 & H1 & H2).
  rewrite (Hds _ _ H2). apply (Hd _ _ H1).
Qed.

Lemma establishes_later d ds x m :
  establishes (pp_group ds) x m -> establishes (pp_group (d :: ds)) x m.
Proof.
  intros Hds s s' H. apply pp_group_cons_inv in H as (s1 & _ & H2).
  apply (Hds _ _ H2).
Qed.

(** Names are compared by computation. *)
Ltac decide_names := apply (bool_decide_unpack _); vm_compute; exact I.

Ltac split_notin H :=
  repeat (apply not_elem_of_cons in H;
          let Hne := fresh "Hne" in destruct H as [Hne H]).

(** Discharges [preserves p x] for a [p] built from the combinators, with
    the required name inequalities among the hypotheses or decidable. *)
Ltac frame :=
  repeat first
    [ assumption
    | apply preserves_skip
    | apply preserves_declare
    | apply preserves_define; first [ assumption | discriminate ]
    | apply preserves_if
    | apply preserves_group
    | apply Forall_nil_2
    | apply Forall_cons_2 ].

(** Reduces a lookup after [H : p a = Some b] to [establishes p x m]. *)
Ltac by_establishes H :=
  match type of H with
  | ?p ?a = Some ?b =>
      match goal with
      | |- macros b !! ?x = Some ?m => refine ((_ : establishes p x m) a b H)
      end
  end.

(** ** Rules for definedness and for declarations *)

Lemma keeps_skip x : keeps_defined pp_skip x.
Proof. intros s s' [= <-] H. exact H. Qed.

Lemma keeps_define x y m : keeps_defined (define y m) x.
Proof.
  intros s s' [= <-] H. unfold is_defined in *. simpl.
  destruct (decide (y = x)) as [->|Hne].
  - rewrite lookup_insert_eq. reflexivity.
  - rewrite lookup_insert_ne by exact Hne. exact H.
Qed.

Lemma keeps_declare x d : keeps_defined (declare d) x.
Proof. intros s s' [= <-] H. exact H. Qed.

Lemma keeps_group x ds :
  Forall (fun d => keeps_defined d x) ds -> keeps_defined (pp_group ds) x.
Proof.
  induction 1 as [|d ds Hd _ IH]; intros s s' H Hx.
  - injection H as <-. exact Hx.
  - apply pp_group_cons_inv in H as (s1 & H1 & H2).
    apply (IH _ _ H2), (Hd _ _ H1), Hx.
Qed.

Lemma keeps_if x c thn els :
  Forall (fun d => keeps_defined d x) thn ->
  Forall (fun d => keeps_defined d x) els ->
  keeps_defined (pp_if c thn els) x.
Proof.
  intros Ht He s s' H. apply pp_if_inv in H as ([|] & _ & H).
  - apply (keeps_group _ _ Ht _ _ H).
  - apply (keeps_group _ _ He _ _ H).
Qed.

Lemma silent_skip : silent pp_skip.
Proof. intros s s' [= <-]. reflexivity. Qed.

Lemma silent_define x m : silent (define x m).
Proof. intros s s' [= <-]. reflexivity. Qed.

Lemma silent_group ds : Forall silent ds -> silent (pp_group ds).
Proof.
  induction 1 as [|d ds Hd _ IH]; intros s s' H.
  - injection H as <-. reflexivity.
  - apply pp_group_cons_inv in H as (s1 & H1 & H2).
    rewrite (IH _ _ H2). apply (Hd _ _ H1).
Qed.

Lemma silent_if c thn els :
  Forall silent thn -> Forall silent els -> silent (pp_if c thn els).
Proof.
  intros Ht He s s' H. apply pp_if_inv in H as ([|] & _ & H).
  - apply (silent_group _ Ht _ _ H).
  - apply (silent_group _ He _ _ H).
Qed.

Ltac keep :=
  repeat first
    [ assumption
    | apply keeps_skip
    | apply keeps_declare
    | apply keeps_define
    | apply keeps_if
    | apply keeps_group
    | apply Forall_nil_2
    | apply Forall_cons_2 ].

Ltac quiet :=
  repeat first
    [ apply silent_skip
    | apply silent_define
    | apply silent_if
    | apply silent_group
    | apply Forall_nil_2
    | apply Forall_cons_2 ].

(** [x ∉ l] from hypotheses [x <> y] for the elements of [l]. *)
Ltac notin :=
  repeat (apply not_elem_of_cons; split; [assumption|]); apply not_elem_of_nil.

Lemma operand_value_empty fuel env x :
  env !! x = Some (ObjMacro []) -> operand_value fuel env x = None.
Proof. intros H. destruct fuel; simpl; rewrite H; reflexivity. Qed.

Lemma platform_options_silent : silent platform_options.
Proof. unfold platform_options. quiet. Qed.

Lemma feature_flags_silent : silent feature_flags.
Proof. unfold feature_flags. quiet. Qed.

Lemma compat_msvc_silent : silent compat_msvc.
Proof. unfold compat_msvc, pp_ifndef. quiet. Qed.

Lemma uthash_overrides_silent : silent uthash_overrides.
Proof. unfold uthash_overrides. quiet. Qed.

Lemma misc_silent : silent misc.
Proof. unfold misc. quiet. Qed.

(** ** config.h, block by block *)

Section ConfigH.

Variable sys_header : string -> pp.

(** <basetsd.h> is a system header with names of its own: it does not
    touch the macros that config.h tests or defines. *)
Hypothesis basetsd_frame :
  forall x, x ∈ config_names -> preserves (sys_header "basetsd.h") x.

(** It can be included wherever config.h asks for it. *)
Hypothesis basetsd_total : forall t, is_Some (sys_header "basetsd.h" t).

Lemma platform_options_preserves x :
  x ∉ ["__DARWIN_C_SOURCE"; "HAVE_NETINET_IN_H"] ->
  preserves platform_options x.
Proof. intros H. split_notin H. unfold platform_options. frame. Qed.

Lemma feature_flags_preserves x :
  x ∉ ["WITH_TLS"; "WITH_THREADING"] -> preserves feature_flags x.
Proof. intros H. split_notin H. unfold feature_flags. frame. Qed.

Lemma compat_msvc_preserves x :
  x ∉ ["snprintf"; "EPROTO"; "ECONNABORTED"; "ENOTCONN"; "ECONNREFUSED"] ->
  preserves compat_msvc x.
Proof.
  intros H. split_notin H. unfold compat_msvc, pp_ifndef. frame.
Qed.

Lemma compat_win32_preserves x :
  x ∈ config_names ->
  x ∉ ["strcasecmp"; "strncasecmp"; "strtok_r"; "strerror_r"] ->
  preserves (compat_win32 sys_header) x.
Proof.
  intros Hin H. split_notin H. pose proof (basetsd_frame x Hin).
  unfold compat_win32, pp_ifdef, include_sys. frame.
Qed.

Lemma uthash_overrides_preserves x :
  x ∉ ["uthash_malloc"; "uthash_free"] -> preserves uthash_overrides x.
Proof. intros H. split_notin H. unfold uthash_overrides. frame. Qed.

Lemma misc_preserves x :
  x ∉ ["UNUSED"; "HAVE_PTHREAD_CANCEL"; "WS_IS_LWS"; "WS_IS_BUILTIN";
       "BROKER_EXPORT"; "TOPIC_HIERARCHY_LIMIT"] ->
  preserves misc x.
Proof. intros H. split_notin H. unfold misc. frame. Qed.

(** A first inclusion runs the seven parts of the header in order. *)
Lemma config_h_first s s' :
  first_inclusion "CONFIG_H" s -> config_h sys_header s = Some s' ->
  exists r1 r2 r3 r4 r5 r6,
    define "CONFIG_H" flag s = Some r1 /\
    platform_options r1 = Some r2 /\
    feature_flags r2 = Some r3 /\
    compat_msvc r3 = Some r4 /\
    compat_win32 sys_header r4 = Some r5 /\
    uthash_overrides r5 = Some r6 /\
    misc r6 = Some s'.
Proof.
  intros Hfirst H. unfold config_h, pp_ifndef in H.
  apply pp_if_inv in H as (b & Hb & H).
  unfold c_not, c_defined in Hb. simpl in Hb.
  rewrite (proj2 (is_defined_false _ _) Hfirst) in Hb.
  injection Hb as <-. simpl negb in H. cbv iota in H.
  apply pp_group_cons_inv in H as (s1 & H1 & H).
  apply pp_group_cons_inv in H as (s2 & H2 & H).
  apply pp_group_cons_inv in H as (s3 & H3 & H).
  apply pp_group_cons_inv in H as (s4 & H4 & H).
  apply pp_group_cons_inv in H as (s5 & H5 & H).
  apply pp_group_cons_inv in H as (s6 & H6 & H).
  apply pp_group_cons_inv in H as (s7 & H7 & H).
  injection H as <-.
  exists s1, s2, s3, s4, s5, s6. repeat split; assumption.
Qed.

Lemma config_h_again s :
  is_defined "CONFIG_H" s = true -> config_h sys_header s = Some s.
Proof.
  intros H. unfold config_h, pp_ifndef, pp_if, c_not, c_defined.
  simpl. rewrite H. reflexivity.
Qed.

(** *** When config.h translates *)

Lemma uintmax_modulus_eq : uintmax_modulus = (2 ^ 64)%N.
Proof. reflexivity. Qed.

(** A literal that fits in 64 bits is its own value. *)
Lemma if_value_small v : (v < uintmax_modulus)%N -> if_value v = v.
Proof. intros H. unfold if_value. apply N.mod_small, H. Qed.

Lemma if_value_1900 : if_value 1900 = 1900%N.
Proof. reflexivity. Qed.

Lemma compat_msvc_cond s v :
  macros s !! "_MSC_VER" = Some (ObjMacro [TNum v]) ->
  c_and (c_defined "_MSC_VER") (c_lt "_MSC_VER" 1900) s
    = Some (N.ltb (if_value v) 1900).
Proof.
  intros Hv. unfold c_and, c_defined, c_lt, is_defined.
  rewrite Hv, (if_operand_num _ _ _ Hv), if_value_1900. reflexivity.
Qed.

Lemma compat_msvc_cond_undef s :
  macros s !! "_MSC_VER" = None ->
  c_and (c_defined "_MSC_VER") (c_lt "_MSC_VER" 1900) s = Some false.
Proof.
  intros Hv. unfold c_and, c_defined, c_lt, is_defined.
  rewrite Hv, (if_operand_undef _ _ Hv). reflexivity.
Qed.

Lemma platform_options_total s : is_Some (platform_options s).
Proof.
  unfold platform_options, pp_if, c_or, c_defined. simpl.
  destruct (is_defined "__APPLE__" s); simpl; [eauto|].
  destruct (is_defined "__FreeBSD__" s), (is_defined "__NetBSD__" s);
    simpl; eauto.
Qed.

Lemma compat_msvc_total s : numeric_msc_ver s -> is_Some (compat_msvc s).
Proof.
  intros [Hv | [v Hv]]; unfold compat_msvc, pp_if.
  - rewrite (compat_msvc_cond_undef _ Hv). simpl. eauto.
  - rewrite (compat_msvc_cond _ _ Hv). simpl.
    destruct (N.ltb (if_value v) 1900); [|simpl; eauto].
    unfold pp_ifndef, pp_if, c_not, c_defined, is_defined. simpl.
    rewrite !lookup_insert_ne by discriminate.
    destruct (macros s !! "ECONNABORTED"); simpl;
      rewrite ?lookup_insert_ne by discriminate;
      destruct (macros s !! "ENOTCONN"); simpl;
      rewrite ?lookup_insert_ne by discriminate;
      destruct (macros s !! "ECONNREFUSED"); simpl; eauto.
Qed.

Lemma compat_win32_total s : is_Some (compat_win32 sys_header s).
Proof.
  unfold compat_win32, pp_ifdef, pp_if, c_defined. simpl.
  destruct (is_defined "WIN32" s); simpl; [|eauto].
  match goal with
  | |- context [is_defined "_MSC_VER" ?t] =>
      destruct (is_defined "_MSC_VER" t); simpl; [|eauto];
      unfold include_sys; destruct (basetsd_total t) as [u ->]; simpl; eauto
  end.
Qed.

Lemma misc_total s : is_Some (misc s).
Proof.
  unfold misc, pp_if, c_and, c_not, c_defined. simpl.
  match goal with
  | |- context [is_defined "ANDROID" ?t] =>
      destruct (is_defined "ANDROID" t), (is_defined "WIN32" t)
  end; simpl; eauto.
Qed.

(** config.h translates on every platform whose compiler either does not
    define _MSC_VER or defines it as a number. *)
Lemma config_h_total s : numeric_msc_ver s -> is_Some (config_h sys_header s).
Proof.
  intros Hv.
  destruct (is_defined "CONFIG_H" s) eqn:Hg.
  { rewrite (config_h_again s Hg). eauto. }
  unfold config_h, pp_ifndef, pp_if, c_not, c_defined. simpl.
  rewrite Hg. simpl.
  destruct (platform_options_total
              (mkTu (<["CONFIG_H" := flag]> (macros s)) (decls s)))
    as [r2 H2].
  rewrite H2. simpl.
  assert (Hv3 : macros r2 !! "_MSC_VER" = macros s !! "_MSC_VER").
  { rewrite (platform_options_preserves "_MSC_VER" ltac:(decide_names) _ _ H2).
    simpl. apply lookup_insert_ne. discriminate. }
  destruct (compat_msvc_total
              (mkTu (<["WITH_THREADING" := flag]>
                       (<["WITH_TLS" := flag]> (macros r2))) (decls r2)))
    as [r4 H4].
  { unfold numeric_msc_ver. simpl.
    rewrite !lookup_insert_ne by discriminate. rewrite Hv3. exact Hv. }
  rewrite H4. simpl.
  destruct (compat_win32_total r4) as [r5 H5].
  rewrite H5. simpl.
  match goal with
  | |- is_Some (misc ?t ≫= _) => destruct (misc_total t) as [r7 H7]
  end.
  rewrite H7. simpl. eauto.
Qed.

(** *** What config.h defines *)

(** Walks a lookup in a later state back through every block that does
    not write the name. *)
Ltac rewind :=
  repeat match goal with
  | H : misc ?a = Some ?b |- context [macros ?b !! ?x] =>
      rewrite (misc_preserves x ltac:(decide_names) a b H)
  | H : uthash_overrides ?a = Some ?b |- context [macros ?b !! ?x] =>
      rewrite (uthash_overrides_preserves x ltac:(decide_names) a b H)
  | H : compat_win32 _ ?a = Some ?b |- context [macros ?b !! ?x] =>
      rewrite (compat_win32_preserves x ltac:(decide_names)
                 ltac:(decide_names) a b H)
  | H : compat_msvc ?a = Some ?b |- context [macros ?b !! ?x] =>
      rewrite (compat_msvc_preserves x ltac:(decide_names) a b H)
  | H : feature_flags ?a = Some ?b |- context [macros ?b !! ?x] =>
      rewrite (feature_flags_preserves x ltac:(decide_names) a b H)
  | H : platform_options ?a = Some ?b |- context [macros ?b !! ?x] =>
      rewrite (platform_options_preserves x ltac:(decide_names) a b H)
  | H : define ?y ?m ?a = Some ?b |- context [macros ?b !! ?x] =>
      rewrite (preserves_define x y m ltac:(discriminate) a b H)
  end.

Lemma feature_flags_establishes s s' :
  feature_flags s = Some s' ->
  macros s' !! "WITH_TLS" = Some flag /\
  macros s' !! "WITH_THREADING" = Some flag.
Proof.
  intros [= <-]. simpl. split.
  - rewrite lookup_insert_ne by discriminate. apply lookup_insert_eq.
  - apply lookup_insert_eq.
Qed.

(** C1. On every platform a first inclusion of config.h translates,
    defines WITH_TLS and WITH_THREADING, and leaves WITH_TLS_PSK, WITH_SRV,
    WITH_BROKER, WITH_WEBSOCKETS, WITH_SOCKS and WITH_ADNS exactly as it
    found them; when the build did not define any of the six beforehand,
    the resulting capability profile is TLS and threading on, everything
    else off. *)
Theorem config_h_feature_profile s :
  first_inclusion "CONFIG_H" s ->
  numeric_msc_ver s ->
  exists s',
    config_h sys_header s = Some s' /\
    macros s' !! "WITH_TLS" = Some flag /\
    macros s' !! "WITH_THREADING" = Some flag /\
    (forall x, x ∈ disabled_features -> macros s' !! x = macros s !! x) /\
    ((forall x, x ∈ disabled_features -> macros s !! x = None) ->
     profile_of s' = minimal_profile).
Proof.
  intros Hfirst Hver.
  destruct (config_h_total s Hver) as [s' H].
  exists s'. split; [exact H|].
  destruct (config_h_first s s' Hfirst H)
    as (r1 & r2 & r3 & r4 & r5 & r6 & H1 & H2 & H3 & H4 & H5 & H6 & H7).
  destruct (feature_flags_establishes _ _ H3) as [Htls Hthr].
  assert (Hkeep : forall x, x ∈ disabled_features ->
                    macros s' !! x = macros s !! x).
  { intros x Hx. unfold disabled_features in Hx.
    repeat (apply elem_of_cons in Hx as [-> | Hx]; [rewind; reflexivity|]).
    apply elem_of_nil in Hx. contradiction. }
  assert (Htls' : macros s' !! "WITH_TLS" = Some flag) by (rewind; exact Htls).
  assert (Hthr' : macros s' !! "WITH_THREADING" = Some flag)
    by (rewind; exact Hthr).
  repeat split; try assumption.
  intros Hnone. unfold profile_of, minimal_profile, is_defined.
  rewrite Htls', Hthr'.
  rewrite !Hkeep by decide_names. rewrite !Hnone by decide_names.
  reflexivity.
Qed.

Lemma misc_establishes_limit :
  establishes misc "TOPIC_HIERARCHY_LIMIT" (ObjMacro [TNum 200]).
Proof.
  unfold misc. do 5 apply establishes_later.
  apply establishes_here; [apply establishes_define | frame].
Qed.

(** C2. A first inclusion of config.h translates, and afterwards
    TOPIC_HIERARCHY_LIMIT is the object-like macro
    whose replacement is the integer literal 200, and the topic
    validation described by the specification, reading its limit from
    that macro, rejects every topic with more than 200 slash-delimited
    segments. *)
Theorem topic_hierarchy_limit_is_200 s :
  first_inclusion "CONFIG_H" s ->
  numeric_msc_ver s ->
  exists s',
    config_h sys_header s = Some s' /\
    macros s' !! "TOPIC_HIERARCHY_LIMIT" = Some (ObjMacro [TNum 200]) /\
    expand_once s' "TOPIC_HIERARCHY_LIMIT" [] = Some [TNum 200] /\
    macro_constant s' "TOPIC_HIERARCHY_LIMIT" = Some 200%N /\
    (forall t, 200 < segment_count t ->
       topic_hierarchy_check s' t = Some InvalidTopic).
Proof.
  intros Hfirst Hver.
  destruct (config_h_total s Hver) as [s' H].
  exists s'. split; [exact H|].
  destruct (config_h_first s s' Hfirst H)
    as (r1 & r2 & r3 & r4 & r5 & r6 & H1 & H2 & H3 & H4 & H5 & H6 & H7).
  pose proof (misc_establishes_limit _ _ H7) as Hdef.
  assert (Hexp : expand_once s' "TOPIC_HIERARCHY_LIMIT" [] = Some [TNum 200]).
  { unfold expand_once. rewrite Hdef. reflexivity. }
  assert (Hconst : macro_constant s' "TOPIC_HIERARCHY_LIMIT" = Some 200%N).
  { unfold macro_constant. rewrite Hexp. reflexivity. }
  repeat split; try assumption.
  intros t Ht. unfold topic_hierarchy_check. rewrite Hconst. simpl.
  destruct (N.ltb_spec 200 (N.of_nat (segment_count t))) as [_|Hge];
    [reflexivity | lia].
Qed.

(** The body of the [#ifdef WIN32] block, as far as macros go. *)
Lemma compat_win32_taken s s' :
  is_defined "WIN32" s = true ->
  compat_win32 sys_header s = Some s' ->
  macros s' !! "strcasecmp" = Some (alias "_stricmp") /\
  macros s' !! "strncasecmp" = Some (alias "_strnicmp") /\
  macros s' !! "strtok_r" = Some (alias "strtok_s") /\
  macros s' !! "strerror_r" =
    Some (FunMacro ["e"; "b"; "l"]
            [TId "strerror_s"; TLParen; TId "b"; TComma; TId "l"; TComma;
             TId "e"; TRParen]).
Proof.
  intros Hwin H. unfold compat_win32, pp_ifdef in H.
  apply pp_if_inv in H as (b & Hb & H).
  unfold c_defined in Hb. rewrite Hwin in Hb. injection Hb as <-.
  pose proof (basetsd_frame "strcasecmp" ltac:(decide_names)).
  pose proof (basetsd_frame "strncasecmp" ltac:(decide_names)).
  pose proof (basetsd_frame "strtok_r" ltac:(decide_names)).
  pose proof (basetsd_frame "strerror_r" ltac:(decide_names)).
  cbv iota in H. unfold include_sys in H.
  repeat split; by_establishes H;
    repeat first
      [ apply establishes_here; [apply establishes_define | frame]
      | apply establishes_later ].
Qed.

Lemma compat_win32_skipped s s' :
  is_defined "WIN32" s = false ->
  compat_win32 sys_header s = Some s' -> s' = s.
Proof.
  intros Hwin H. unfold compat_win32, pp_ifdef in H.
  apply pp_if_inv in H as (b & Hb & H).
  unfold c_defined in Hb. rewrite Hwin in Hb. injection Hb as <-.
  injection H as <-. reflexivity.
Qed.

(** C4. A first inclusion of config.h translates.  With WIN32 defined it
    makes strcasecmp, strncasecmp and
    strtok_r expand to _stricmp, _strnicmp and strtok_s, and
    strerror_r(e, b, l) expand to strerror_s(b, l, e) for any three
    arguments; without WIN32 the four names keep whatever meaning they
    had before the inclusion. *)
Theorem win32_string_function_names s :
  first_inclusion "CONFIG_H" s ->
  numeric_msc_ver s ->
  exists s',
    config_h sys_header s = Some s' /\
    (is_defined "WIN32" s = true ->
       expand_once s' "strcasecmp" [] = Some [TId "_stricmp"] /\
       expand_once s' "strncasecmp" [] = Some [TId "_strnicmp"] /\
       expand_once s' "strtok_r" [] = Some [TId "strtok_s"] /\
       (forall e b l,
          expand_once s' "strerror_r" [e; b; l] =
            Some (TId "strerror_s" :: TLParen ::
                  b ++ TComma :: l ++ TComma :: e ++ [TRParen]))) /\
    (is_defined "WIN32" s = false ->
       forall x, x ∈ ["strcasecmp"; "strncasecmp"; "strtok_r"; "strerror_r"] ->
         macros s' !! x = macros s !! x).
Proof.
  intros Hfirst Hver.
  destruct (config_h_total s Hver) as [s' H].
  exists s'. split; [exact H|].
  destruct (config_h_first s s' Hfirst H)
    as (r1 & r2 & r3 & r4 & r5 & r6 & H1 & H2 & H3 & H4 & H5 & H6 & H7).
  assert (Hwin4 : is_defined "WIN32" r4 = is_defined "WIN32" s).
  { apply is_defined_ext. rewind. reflexivity. }
  split; intros Hwin; rewrite <- Hwin4 in Hwin.
  - destruct (compat_win32_taken _ _ Hwin H5) as (Ha & Hb & Hc & Hd).
    unfold expand_once. repeat split; try intros e b l; rewind.
    + rewrite Ha. reflexivity.
    + rewrite Hb. reflexivity.
    + rewrite Hc. reflexivity.
    + rewrite Hd. reflexivity.
  - pose proof (compat_win32_skipped _ _ Hwin H5) as ->.
    intros x Hx.
    repeat (apply elem_of_cons in Hx as [-> | Hx]; [rewind; reflexivity|]).
    apply elem_of_nil in Hx. contradiction.
Qed.

Lemma uthash_overrides_establishes s s' :
  uthash_overrides s = Some s' ->
  macros s' !! "uthash_malloc" =
    Some (FunMacro ["sz"]
            [TId "mosquitto_malloc"; TLParen; TId "sz"; TRParen]) /\
  macros s' !! "uthash_free" =
    Some (FunMacro ["ptr"; "sz"]
            [TId "mosquitto_free"; TLParen; TId "ptr"; TRParen]).
Proof.
  intros [= <-]. simpl. split.
  - rewrite lookup_insert_ne by discriminate. apply lookup_insert_eq.
  - apply lookup_insert_eq.
Qed.

(** C5. A first inclusion of config.h translates, and afterwards
    uthash_malloc(sz) is replaced by
    mosquitto_malloc(sz) and uthash_free(ptr, sz) by mosquitto_free(ptr),
    for any argument tokens; the size argument of uthash_free does not
    appear in the replacement. *)
Theorem uthash_uses_mosquitto_allocator s :
  first_inclusion "CONFIG_H" s ->
  numeric_msc_ver s ->
  exists s',
    config_h sys_header s = Some s' /\
    (forall sz,
       expand_once s' "uthash_malloc" [sz] =
         Some (TId "mosquitto_malloc" :: TLParen :: sz ++ [TRParen])) /\
    (forall ptr sz,
       expand_once s' "uthash_free" [ptr; sz] =
         Some (TId "mosquitto_free" :: TLParen :: ptr ++ [TRParen])).
Proof.
  intros Hfirst Hver.
  destruct (config_h_total s Hver) as [s' H].
  exists s'. split; [exact H|].
  destruct (config_h_first s s' Hfirst H)
    as (r1 & r2 & r3 & r4 & r5 & r6 & H1 & H2 & H3 & H4 & H5 & H6 & H7).
  destruct (uthash_overrides_establishes _ _ H6) as [Hm Hf].
  unfold expand_once. split; intros; rewind.
  - rewrite Hm. reflexivity.
  - rewrite Hf. reflexivity.
Qed.

(** Lines 76-79 in isolation. *)
Lemma misc_pthread_cancel s s' :
  misc s = Some s' ->
  macros s' !! "HAVE_PTHREAD_CANCEL" =
    if negb (is_defined "ANDROID" s) && negb (is_defined "WIN32" s)
    then Some flag
    else macros s !! "HAVE_PTHREAD_CANCEL".
Proof.
  intros H. unfold misc in H.
  apply pp_group_cons_inv in H as (t1 & [= <-] & H).
  apply pp_group_cons_inv in H as (t2 & Hif & H).
  assert (Hrest : macros s' !! "HAVE_PTHREAD_CANCEL"
                  = macros t2 !! "HAVE_PTHREAD_CANCEL").
  { revert H. generalize t2 s'.
    change (preserves
              (pp_group
                 [define "WS_IS_LWS" (ObjMacro [TNum 1]);
                  define "WS_IS_BUILTIN" (ObjMacro [TNum 2]);
                  define "BROKER_EXPORT" flag;
                  define "TOPIC_HIERARCHY_LIMIT" (ObjMacro [TNum 200])])
              "HAVE_PTHREAD_CANCEL").
    frame. }
  rewrite Hrest. clear Hrest H.
  apply pp_if_inv in Hif as (b & Hb & Hif).
  unfold c_and, c_not, c_defined, is_defined in Hb. simpl in Hb.
  rewrite !lookup_insert_ne in Hb by discriminate.
  unfold is_defined. injection Hb as <-.
  destruct (macros s !! "ANDROID"), (macros s !! "WIN32"); simpl in *;
    injection Hif as <-; simpl;
    first [ apply lookup_insert_eq
          | rewrite lookup_insert_ne by discriminate; reflexivity ].
Qed.

(** C8. A first inclusion of config.h translates, and HAVE_PTHREAD_CANCEL
    is defined by it exactly when neither ANDROID nor WIN32 is defined;
    otherwise
    config.h leaves the name alone, so that in a build that did not
    define it beforehand it is defined if and only if neither ANDROID nor
    WIN32 is. *)
Theorem have_pthread_cancel_iff_not_android_nor_win32 s :
  first_inclusion "CONFIG_H" s ->
  numeric_msc_ver s ->
  exists s',
    config_h sys_header s = Some s' /\
    macros s' !! "HAVE_PTHREAD_CANCEL" =
      (if negb (is_defined "ANDROID" s) && negb (is_defined "WIN32" s)
       then Some flag
       else macros s !! "HAVE_PTHREAD_CANCEL") /\
    (macros s !! "HAVE_PTHREAD_CANCEL" = None ->
       (is_defined "HAVE_PTHREAD_CANCEL" s' = true <->
        is_defined "ANDROID" s = false /\ is_defined "WIN32" s = false)).
Proof.
  intros Hfirst Hver.
  destruct (config_h_total s Hver) as [s' H].
  exists s'. split; [exact H|].
  destruct (config_h_first s s' Hfirst H)
    as (r1 & r2 & r3 & r4 & r5 & r6 & H1 & H2 & H3 & H4 & H5 & H6 & H7).
  assert (Ha : is_defined "ANDROID" r6 = is_defined "ANDROID" s).
  { apply is_defined_ext. rewind. reflexivity. }
  assert (Hw : is_defined "WIN32" r6 = is_defined "WIN32" s).
  { apply is_defined_ext. rewind. reflexivity. }
  assert (Hp : macros r6 !! "HAVE_PTHREAD_CANCEL"
               = macros s !! "HAVE_PTHREAD_CANCEL").
  { rewind. reflexivity. }
  pose proof (misc_pthread_cancel _ _ H7) as Hm.
  rewrite Ha, Hw, Hp in Hm.
  split; [exact Hm|].
  intros Hnone. unfold is_defined at 1. rewrite Hm, Hnone.
  destruct (is_defined "ANDROID" s), (is_defined "WIN32" s); simpl;
    split; try (intros [Hx Hy]); intros; try discriminate; tauto.
Qed.

(** [#ifndef X] / [#define X m] / [#endif]: a default for [X]. *)
Lemma ifndef_define x m s s' :
  pp_ifndef x [define x m] s = Some s' ->
  macros s' !! x = match macros s !! x with
                   | Some m0 => Some m0
                   | None => Some m
                   end /\
  (forall y, y <> x -> macros s' !! y = macros s !! y).
Proof.
  unfold pp_ifndef, pp_if, c_not, c_defined, is_defined. simpl.
  destruct (macros s !! x) as [m0|] eqn:E; simpl; intros [= <-]; simpl.
  - split; [exact E | reflexivity].
  - split; [apply lookup_insert_eq|].
    intros y Hy. apply lookup_insert_ne. congruence.
Qed.

Lemma compat_msvc_taken s s' v :
  macros s !! "_MSC_VER" = Some (ObjMacro [TNum v]) -> (v < 1900)%N ->
  compat_msvc s = Some s' ->
  macros s' !! "snprintf" = Some (alias "sprintf_s") /\
  macros s' !! "EPROTO" = Some (alias "ECONNABORTED") /\
  (forall x w, (x, w) ∈ winsock_codes ->
     macros s' !! x = match macros s !! x with
                      | Some m => Some m
                      | None => Some (alias w)
                      end).
Proof.
  intros Hv Hlt H. unfold compat_msvc in H.
  apply pp_if_inv in H as (b & Hb & H).
  rewrite (compat_msvc_cond _ _ Hv) in Hb. injection Hb as <-.
  rewrite if_value_small in H
    by (rewrite uintmax_modulus_eq; etransitivity; [exact Hlt | reflexivity]).
  rewrite (proj2 (N.ltb_lt _ _) Hlt) in H.
  apply pp_group_cons_inv in H as (t1 & [= <-] & H).
  apply pp_group_cons_inv in H as (t2 & [= <-] & H).
  apply pp_group_cons_inv in H as (t3 & H3 & H).
  apply pp_group_cons_inv in H as (t4 & H4 & H).
  apply pp_group_cons_inv in H as (t5 & H5 & H).
  injection H as <-.
  destruct (ifndef_define _ _ _ _ H3) as [E3 F3].
  destruct (ifndef_define _ _ _ _ H4) as [E4 F4].
  destruct (ifndef_define _ _ _ _ H5) as [E5 F5].
  simpl in E3, F3.
  split; [|split].
  - rewrite F5, F4, F3 by discriminate.
    rewrite lookup_insert_ne by discriminate. apply lookup_insert_eq.
  - rewrite F5, F4, F3 by discriminate. apply lookup_insert_eq.
  - intros x w Hx. unfold winsock_codes in Hx.
    apply elem_of_cons in Hx as [[= -> ->] | Hx];
      [|apply elem_of_cons in Hx as [[= -> ->] | Hx];
        [|apply elem_of_cons in Hx as [[= -> ->] | Hx];
          [|apply elem_of_nil in Hx; contradiction]]].
    + rewrite F5, F4 by discriminate. rewrite E3.
      rewrite !lookup_insert_ne by discriminate. reflexivity.
    + rewrite F5 by discriminate. rewrite E4.
      rewrite F3 by discriminate.
      rewrite !lookup_insert_ne by discriminate. reflexivity.
    + rewrite E5. rewrite F4, F3 by discriminate.
      rewrite !lookup_insert_ne by discriminate. reflexivity.
Qed.

Lemma compat_msvc_skipped s s' :
  macros s !! "_MSC_VER" = None \/
  (exists v, macros s !! "_MSC_VER" = Some (ObjMacro [TNum v]) /\
             (1900 <= if_value v)%N) ->
  compat_msvc s = Some s' -> s' = s.
Proof.
  intros Hv H. unfold compat_msvc in H.
  apply pp_if_inv in H as (b & Hb & H).
  destruct Hv as [Hv | (v & Hv & Hge)].
  - rewrite (compat_msvc_cond_undef _ Hv) in Hb. injection Hb as <-.
    injection H as <-. reflexivity.
  - rewrite (compat_msvc_cond _ _ Hv) in Hb. injection Hb as <-.
    rewrite (proj2 (N.ltb_ge _ _) Hge) in H.
    injection H as <-. reflexivity.
Qed.

(** C10. A first inclusion of config.h translates.  When the compiler
    defines _MSC_VER as a number below 1900, it makes snprintf expand to
    sprintf_s, defines EPROTO as ECONNABORTED, and gives ECONNABORTED,
    ENOTCONN and ECONNREFUSED the Winsock codes WSAECONNABORTED,
    WSAENOTCONN and WSAECONNREFUSED unless they already had a definition,
    which is then kept.  When _MSC_VER is undefined, or is a number from
    1900 on that the preprocessor's 64-bit integer type can hold, none of
    the five names is changed. *)
Theorem msvc_before_1900_compat s :
  first_inclusion "CONFIG_H" s ->
  numeric_msc_ver s ->
  exists s',
    config_h sys_header s = Some s' /\
    (forall v,
       macros s !! "_MSC_VER" = Some (ObjMacro [TNum v]) -> (v < 1900)%N ->
       expand_once s' "snprintf" [] = Some [TId "sprintf_s"] /\
       macros s' !! "EPROTO" = Some (alias "ECONNABORTED") /\
       (forall x w, (x, w) ∈ winsock_codes ->
          macros s' !! x = match macros s !! x with
                           | Some m => Some m
                           | None => Some (alias w)
                           end)) /\
    (macros s !! "_MSC_VER" = None \/
     (exists v, macros s !! "_MSC_VER" = Some (ObjMacro [TNum v]) /\
                (1900 <= v)%N /\ (v < uintmax_modulus)%N) ->
     forall x,
       x ∈ ["snprintf"; "EPROTO"; "ECONNABORTED"; "ENOTCONN"; "ECONNREFUSED"] ->
       macros s' !! x = macros s !! x).
Proof.
  intros Hfirst Hver.
  destruct (config_h_total s Hver) as [s' H].
  exists s'. split; [exact H|].
  destruct (config_h_first s s' Hfirst H)
    as (r1 & r2 & r3 & r4 & r5 & r6 & H1 & H2 & H3 & H4 & H5 & H6 & H7).
  assert (Hv3 : macros r3 !! "_MSC_VER" = macros s !! "_MSC_VER")
    by (rewind; reflexivity).
  split.
  - intros v Hv Hlt. rewrite <- Hv3 in Hv.
    destruct (compat_msvc_taken _ _ _ Hv Hlt H4) as (Hs & He & Hw).
    unfold expand_once. repeat split; rewind.
    + rewrite Hs. reflexivity.
    + exact He.
    + intros x w Hx. specialize (Hw x w Hx). unfold winsock_codes in Hx.
      repeat (apply elem_of_cons in Hx as [[= -> ->] | Hx];
              [rewind; rewrite Hw; rewind; reflexivity|]).
      apply elem_of_nil in Hx. contradiction.
  - intros Hv x Hx. rewrite <- Hv3 in Hv.
    assert (Hv' : macros r3 !! "_MSC_VER" = None \/
                  (exists v, macros r3 !! "_MSC_VER" = Some (ObjMacro [TNum v])
                             /\ (1900 <= if_value v)%N)).
    { destruct Hv as [Hv | (v & Hv & Hge & Hfit)]; [left; exact Hv|].
      right. exists v. split; [exact Hv|].
      rewrite (if_value_small v Hfit). exact Hge. }
    pose proof (compat_msvc_skipped _ _ Hv' H4) as ->.
    repeat (apply elem_of_cons in Hx as [-> | Hx]; [rewind; reflexivity|]).
    apply elem_of_nil in Hx. contradiction.
Qed.

(** The guard is set first and nothing below it is an [#undef]. *)
Lemma config_h_sets_guard s s' :
  config_h sys_header s = Some s' -> is_defined "CONFIG_H" s' = true.
Proof.
  intros H. destruct (macros s !! "CONFIG_H") as [m|] eqn:E.
  - assert (Hd : is_defined "CONFIG_H" s = true)
      by (apply is_defined_true; eauto).
    rewrite (config_h_again s Hd) in H. injection H as <-. exact Hd.
  - destruct (config_h_first s s' E H)
      as (r1 & r2 & r3 & r4 & r5 & r6 & H1 & H2 & H3 & H4 & H5 & H6 & H7).
    apply is_defined_true. rewind.
    injection H1 as <-. simpl. rewrite lookup_insert_eq. eauto.
Qed.

Lemma config_h_idempotent s s' :
  config_h sys_header s = Some s' -> config_h sys_header s' = Some s'.
Proof. intros H. apply config_h_again, (config_h_sets_guard s), H. Qed.

(** *** The rest of config.h *)

(** Lines 13-17 in isolation. *)
Lemma platform_options_effect s s' :
  platform_options s = Some s' ->
  macros s' !! "__DARWIN_C_SOURCE" =
    (if is_defined "__APPLE__" s then Some flag
     else macros s !! "__DARWIN_C_SOURCE") /\
  macros s' !! "HAVE_NETINET_IN_H" =
    (if negb (is_defined "__APPLE__" s)
        && (is_defined "__FreeBSD__" s || is_defined "__NetBSD__" s)
     then Some flag
     else macros s !! "HAVE_NETINET_IN_H").
Proof.
  unfold platform_options, pp_if, c_or, c_defined. simpl.
  destruct (is_defined "__APPLE__" s); simpl;
    [| destruct (is_defined "__FreeBSD__" s), (is_defined "__NetBSD__" s);
       simpl ];
    intros [= <-]; simpl; split;
    rewrite ?lookup_insert_eq, ?lookup_insert_ne by discriminate; reflexivity.
Qed.

(** X1. Platform options: config.h defines __DARWIN_C_SOURCE exactly on
    __APPLE__, and HAVE_NETINET_IN_H exactly where __APPLE__ is absent and
    __FreeBSD__ or __NetBSD__ is present (the [#elif] is not looked at on
    Apple); elsewhere both names are left alone, so a build that predefined
    neither never ends up with both. *)
Theorem platform_options_by_system s :
  first_inclusion "CONFIG_H" s ->
  numeric_msc_ver s ->
  exists s',
    config_h sys_header s = Some s' /\
    macros s' !! "__DARWIN_C_SOURCE" =
      (if is_defined "__APPLE__" s then Some flag
       else macros s !! "__DARWIN_C_SOURCE") /\
    macros s' !! "HAVE_NETINET_IN_H" =
      (if negb (is_defined "__APPLE__" s)
          && (is_defined "__FreeBSD__" s || is_defined "__NetBSD__" s)
       then Some flag
       else macros s !! "HAVE_NETINET_IN_H") /\
    (macros s !! "__DARWIN_C_SOURCE" = None ->
     macros s !! "HAVE_NETINET_IN_H" = None ->
     is_defined "__DARWIN_C_SOURCE" s' && is_defined "HAVE_NETINET_IN_H" s'
       = false).
Proof.
  intros Hfirst Hver.
  destruct (config_h_total s Hver) as [s' H].
  exists s'. split; [exact H|].
  destruct (config_h_first s s' Hfirst H)
    as (r1 & r2 & r3 & r4 & r5 & r6 & H1 & H2 & H3 & H4 & H5 & H6 & H7).
  destruct (platform_options_effect _ _ H2) as [Hd Hn].
  assert (Ea : is_defined "__APPLE__" r1 = is_defined "__APPLE__" s)
    by (apply is_defined_ext; rewind; reflexivity).
  assert (Ef : is_defined "__FreeBSD__" r1 = is_defined "__FreeBSD__" s)
    by (apply is_defined_ext; rewind; reflexivity).
  assert (En : is_defined "__NetBSD__" r1 = is_defined "__NetBSD__" s)
    by (apply is_defined_ext; rewind; reflexivity).
  assert (Ed : macros r1 !! "__DARWIN_C_SOURCE"
               = macros s !! "__DARWIN_C_SOURCE") by (rewind; reflexivity).
  assert (Eh : macros r1 !! "HAVE_NETINET_IN_H"
               = macros s !! "HAVE_NETINET_IN_H") by (rewind; reflexivity).
  rewrite Ea, Ed in Hd. rewrite Ea, Ef, En, Eh in Hn.
  assert (Hd' : macros s' !! "__DARWIN_C_SOURCE"
                = macros r2 !! "__DARWIN_C_SOURCE") by (rewind; reflexivity).
  assert (Hn' : macros s' !! "HAVE_NETINET_IN_H"
                = macros r2 !! "HAVE_NETINET_IN_H") by (rewind; reflexivity).
  rewrite Hd in Hd'. rewrite Hn in Hn'.
  split; [exact Hd' | split; [exact Hn'|]].
  intros Dnone Nnone. unfold is_defined.
  rewrite Hd', Hn', Dnone, Nnone.
  fold (is_defined "__APPLE__" s).
  destruct (is_defined "__APPLE__" s); reflexivity.
Qed.

Lemma compat_win32_preserves_any x :
  preserves (sys_header "basetsd.h") x ->
  x ∉ ["strcasecmp"; "strncasecmp"; "strtok_r"; "strerror_r"] ->
  preserves (compat_win32 sys_header) x.
Proof.
  intros Hsys H. split_notin H.
  unfold compat_win32, pp_ifdef, include_sys. frame.
Qed.

Lemma config_h_frame s s' x :
  first_inclusion "CONFIG_H" s ->
  config_h sys_header s = Some s' ->
  x ∉ config_defines ->
  preserves (sys_header "basetsd.h") x ->
  macros s' !! x = macros s !! x.
Proof.
  intros Hfirst H Hx Hsys.
  destruct (config_h_first s s' Hfirst H)
    as (r1 & r2 & r3 & r4 & r5 & r6 & H1 & H2 & H3 & H4 & H5 & H6 & H7).
  unfold config_defines in Hx. split_notin Hx.
  rewrite (misc_preserves x ltac:(notin) _ _ H7).
  rewrite (uthash_overrides_preserves x ltac:(notin) _ _ H6).
  rewrite (compat_win32_preserves_any x Hsys ltac:(notin) _ _ H5).
  rewrite (compat_msvc_preserves x ltac:(notin) _ _ H4).
  rewrite (feature_flags_preserves x ltac:(notin) _ _ H3).
  rewrite (platform_options_preserves x ltac:(notin) _ _ H2).
  apply (preserves_define x "CONFIG_H" flag ltac:(assumption) _ _ H1).
Qed.

(** X2. config.h writes only the names it defines: any other macro,
    whether config.h tests it (__APPLE__, WIN32, ANDROID, _MSC_VER, ...)
    or has never heard of it, has the same definition or absence of one
    after the inclusion as before, as long as <basetsd.h> leaves it alone
    too. *)
Theorem config_h_writes_only_its_defines s :
  first_inclusion "CONFIG_H" s ->
  numeric_msc_ver s ->
  exists s',
    config_h sys_header s = Some s' /\
    (forall x,
       x ∉ config_defines ->
       preserves (sys_header "basetsd.h") x ->
       macros s' !! x = macros s !! x).
Proof.
  intros Hfirst Hver.
  destruct (config_h_total s Hver) as [s' H].
  exists s'. split; [exact H|].
  intros x Hx Hsys. exact (config_h_frame s s' x Hfirst H Hx Hsys).
Qed.

Lemma config_h_keeps_defined x :
  keeps_defined (sys_header "basetsd.h") x ->
  keeps_defined (config_h sys_header) x.
Proof.
  intros Hsys.
  unfold config_h, platform_options, feature_flags, compat_msvc, compat_win32,
    uthash_overrides, misc, pp_ifndef, pp_ifdef, include_sys.
  keep.
Qed.

(** X3. config.h never takes a definition away: the [#undef] lines 24-29
    are inside comments and no directive removes a name, so every macro
    that is defined before the inclusion is still defined after it,
    provided <basetsd.h> does not undefine it either.  This holds on a
    first inclusion and on any later one. *)
Theorem config_h_never_undefines s x :
  numeric_msc_ver s ->
  keeps_defined (sys_header "basetsd.h") x ->
  is_defined x s = true ->
  exists s',
    config_h sys_header s = Some s' /\ is_defined x s' = true.
Proof.
  intros Hver Hsys Hx.
  destruct (config_h_total s Hver) as [s' H].
  exists s'. split; [exact H|].
  exact (config_h_keeps_defined x Hsys s s' H Hx).
Qed.

(** Lines 52-61, as far as declarations go. *)
Lemma compat_win32_decls s s' :
  compat_win32 sys_header s = Some s' ->
  (is_defined "WIN32" s && is_defined "_MSC_VER" s = false ->
   decls s' = decls s) /\
  (is_defined "WIN32" s = true -> is_defined "_MSC_VER" s = true ->
   exists t u,
     sys_header "basetsd.h" t = Some u /\
     decls t = decls s /\
     decls s' = (decls u ++ [ssize_t_typedef])%list).
Proof.
  unfold compat_win32, pp_ifdef, pp_if, c_defined, include_sys. simpl.
  destruct (is_defined "WIN32" s); simpl.
  - unfold is_defined at 1. simpl.
    rewrite !lookup_insert_ne by discriminate.
    unfold is_defined.
    destruct (macros s !! "_MSC_VER") as [m|]; simpl.
    + match goal with
      | |- context [sys_header "basetsd.h" ?t] =>
          destruct (sys_header "basetsd.h" t) as [u|] eqn:Hu; simpl;
            [|discriminate];
          intros [= <-]; split; [discriminate|];
          intros _ _; exists t, u; simpl; repeat split; assumption
      end.
    + intros [= <-]. split; [reflexivity | discriminate].
  - intros [= <-]. split; [reflexivity | discriminate].
Qed.

(** X4. The only declaration config.h ever makes is the ssize_t typedef of
    line 59, and it makes it exactly when WIN32 and _MSC_VER are both
    defined, right after the declarations of <basetsd.h>, which is included
    at that point and nowhere else.  On every other platform the
    declarations are those from before the inclusion. *)
Theorem ssize_t_typedef_needs_WIN32_and_MSC_VER s :
  first_inclusion "CONFIG_H" s ->
  numeric_msc_ver s ->
  exists s',
    config_h sys_header s = Some s' /\
    (is_defined "WIN32" s && is_defined "_MSC_VER" s = false ->
     decls s' = decls s) /\
    (is_defined "WIN32" s = true -> is_defined "_MSC_VER" s = true ->
     exists t u,
       sys_header "basetsd.h" t = Some u /\
       decls t = decls s /\
       decls s' = (decls u ++ [ssize_t_typedef])%list).
Proof.
  intros Hfirst Hver.
  destruct (config_h_total s Hver) as [s' H].
  exists s'. split; [exact H|].
  destruct (config_h_first s s' Hfirst H)
    as (r1 & r2 & r3 & r4 & r5 & r6 & H1 & H2 & H3 & H4 & H5 & H6 & H7).
  assert (Ew : is_defined "WIN32" r4 = is_defined "WIN32" s)
    by (apply is_defined_ext; rewind; reflexivity).
  assert (Em : is_defined "_MSC_VER" r4 = is_defined "_MSC_VER" s)
    by (apply is_defined_ext; rewind; reflexivity).
  assert (Eb : decls r4 = decls s).
  { rewrite (compat_msvc_silent _ _ H4), (feature_flags_silent _ _ H3),
      (platform_options_silent _ _ H2).
    injection H1 as <-. reflexivity. }
  assert (Ea : decls s' = decls r5).
  { rewrite (misc_silent _ _ H7), (uthash_overrides_silent _ _ H6).
    reflexivity. }
  destruct (compat_win32_decls _ _ H5) as [Hno Hyes].
  rewrite Ew, Em, Eb in Hno. rewrite Ew, Em in Hyes.
  split.
  - intros Hc. rewrite Ea. apply Hno, Hc.
  - intros Hw Hm. destruct (Hyes Hw Hm) as (t & u & Hu & Ht & Hd).
    exists t, u. rewrite Ea, Ht, Eb. repeat split; assumption.
Qed.

(** X6. On old MSVC every errno name that config.h introduces has a
    definition afterwards.  EPROTO is replaced by ECONNABORTED, and
    ECONNABORTED, ENOTCONN and ECONNREFUSED are all defined whatever the
    platform's headers had done before; where ECONNABORTED had no
    definition it is the Winsock code, so EPROTO leads to WSAECONNABORTED
    in two replacement steps. *)
Theorem old_msvc_errno_names_are_defined s v :
  first_inclusion "CONFIG_H" s ->
  macros s !! "_MSC_VER" = Some (ObjMacro [TNum v]) ->
  (v < 1900)%N ->
  exists s',
    config_h sys_header s = Some s' /\
    expand_once s' "EPROTO" [] = Some [TId "ECONNABORTED"] /\
    is_defined "ECONNABORTED" s' = true /\
    is_defined "ENOTCONN" s' = true /\
    is_defined "ECONNREFUSED" s' = true /\
    (macros s !! "ECONNABORTED" = None ->
     expand_once s' "ECONNABORTED" [] = Some [TId "WSAECONNABORTED"]).
Proof.
  intros Hfirst Hv Hlt.
  assert (Hver : numeric_msc_ver s) by (right; exists v; exact Hv).
  destruct (config_h_total s Hver) as [s' H].
  exists s'. split; [exact H|].
  destruct (config_h_first s s' Hfirst H)
    as (r1 & r2 & r3 & r4 & r5 & r6 & H1 & H2 & H3 & H4 & H5 & H6 & H7).
  assert (Hv3 : macros r3 !! "_MSC_VER" = Some (ObjMacro [TNum v]))
    by (rewind; exact Hv).
  destruct (compat_msvc_taken _ _ _ Hv3 Hlt H4) as (_ & He & Hw).
  pose proof (Hw "ECONNABORTED" "WSAECONNABORTED" ltac:(decide_names)) as Ha.
  pose proof (Hw "ENOTCONN" "WSAENOTCONN" ltac:(decide_names)) as Hn.
  pose proof (Hw "ECONNREFUSED" "WSAECONNREFUSED" ltac:(decide_names)) as Hr.
  assert (Ea0 : macros r3 !! "ECONNABORTED" = macros s !! "ECONNABORTED")
    by (rewind; reflexivity).
  unfold expand_once, is_defined. repeat split; rewind.
  - rewrite He. reflexivity.
  - rewrite Ha. destruct (macros r3 !! "ECONNABORTED"); reflexivity.
  - rewrite Hn. destruct (macros r3 !! "ENOTCONN"); reflexivity.
  - rewrite Hr. destruct (macros r3 !! "ECONNREFUSED"); reflexivity.
  - intros Hnone. rewind. rewrite Ha, Ea0, Hnone. reflexivity.
Qed.

Lemma misc_establishes_UNUSED :
  establishes misc "UNUSED"
    (FunMacro ["A"] [TLParen; TId "void"; TRParen; TLParen; TId "A"; TRParen]).
Proof.
  unfold misc. apply establishes_here; [apply establishes_define | frame].
Qed.

Lemma misc_establishes_WS_IS_LWS :
  establishes misc "WS_IS_LWS" (ObjMacro [TNum 1]).
Proof.
  unfold misc. do 2 apply establishes_later.
  apply establishes_here; [apply establishes_define | frame].
Qed.

Lemma misc_establishes_WS_IS_BUILTIN :
  establishes misc "WS_IS_BUILTIN" (ObjMacro [TNum 2]).
Proof.
  unfold misc. do 3 apply establishes_later.
  apply establishes_here; [apply establishes_define | frame].
Qed.

Lemma misc_establishes_BROKER_EXPORT :
  establishes misc "BROKER_EXPORT" flag.
Proof.
  unfold misc. do 4 apply establishes_later.
  apply establishes_here; [apply establishes_define | frame].
Qed.

(** X7. After config.h, UNUSED(A) is replaced by a cast of the
    parenthesised argument to void, for any argument tokens, the empty
    argument included. *)
Theorem UNUSED_casts_its_argument_to_void s :
  first_inclusion "CONFIG_H" s ->
  numeric_msc_ver s ->
  exists s',
    config_h sys_header s = Some s' /\
    (forall a,
       expand_once s' "UNUSED" [a] =
         Some (TLParen :: TId "void" :: TRParen :: TLParen :: a ++ [TRParen])).
Proof.
  intros Hfirst Hver.
  destruct (config_h_total s Hver) as [s' H].
  exists s'. split; [exact H|].
  destruct (config_h_first s s' Hfirst H)
    as (r1 & r2 & r3 & r4 & r5 & r6 & H1 & H2 & H3 & H4 & H5 & H6 & H7).
  pose proof (misc_establishes_UNUSED _ _ H7) as Hu.
  intros a. unfold expand_once. rewrite Hu. reflexivity.
Qed.

(** X8. The two websocket selector values are 1 and 2 as [#if] operands,
    while WITH_WEBSOCKETS, which config.h leaves undefined, counts as 0
    there: a test of WITH_WEBSOCKETS against either selector is false, and
    the selectors cannot be confused with each other. *)
Theorem websocket_selectors_differ_from_disabled s :
  first_inclusion "CONFIG_H" s ->
  numeric_msc_ver s ->
  macros s !! "WITH_WEBSOCKETS" = None ->
  exists s',
    config_h sys_header s = Some s' /\
    if_operand (macros s') "WS_IS_LWS" = Some 1%N /\
    if_operand (macros s') "WS_IS_BUILTIN" = Some 2%N /\
    if_operand (macros s') "WITH_WEBSOCKETS" = Some 0%N.
Proof.
  intros Hfirst Hver Hws.
  destruct (config_h_total s Hver) as [s' H].
  exists s'. split; [exact H|].
  destruct (config_h_first s s' Hfirst H)
    as (r1 & r2 & r3 & r4 & r5 & r6 & H1 & H2 & H3 & H4 & H5 & H6 & H7).
  assert (Hws' : macros s' !! "WITH_WEBSOCKETS" = None) by (rewind; exact Hws).
  repeat split.
  - apply if_operand_num, (misc_establishes_WS_IS_LWS _ _ H7).
  - apply if_operand_num, (misc_establishes_WS_IS_BUILTIN _ _ H7).
  - apply if_operand_undef, Hws'.
Qed.

Lemma compat_msvc_malformed s :
  macros s !! "_MSC_VER" = Some (ObjMacro []) -> compat_msvc s = None.
Proof.
  intros Hv. unfold compat_msvc, pp_if, c_and, c_defined, c_lt, is_defined,
    if_operand.
  rewrite Hv, (operand_value_empty _ _ _ Hv). reflexivity.
Qed.

(** X9. A build that defines _MSC_VER with an empty replacement list
    leaves the [#if] of line 38 without a left operand for [<]: a first
    inclusion of config.h does not translate, whatever the system headers
    are.  With the guard CONFIG_H already set, the same translation unit
    is accepted, because the line is then never reached. *)
Theorem empty_MSC_VER_breaks_first_inclusion s :
  macros s !! "_MSC_VER" = Some (ObjMacro []) ->
  (first_inclusion "CONFIG_H" s -> config_h sys_header s = None) /\
  (is_defined "CONFIG_H" s = true -> config_h sys_header s = Some s).
Proof.
  intros Hv. split; [|apply config_h_again].
  intros Hfirst.
  unfold config_h, pp_ifndef, pp_if, c_not, c_defined. simpl.
  rewrite (proj2 (is_defined_false _ _) Hfirst). simpl.
  destruct (platform_options_total
              (mkTu (<["CONFIG_H" := flag]> (macros s)) (decls s)))
    as [r2 H2].
  rewrite H2. simpl.
  rewrite compat_msvc_malformed; [reflexivity|].
  simpl. rewrite !lookup_insert_ne by discriminate.
  rewrite (platform_options_preserves "_MSC_VER" ltac:(decide_names) _ _ H2).
  simpl. rewrite lookup_insert_ne by discriminate. exact Hv.
Qed.

(** X10. The unconditional definitions of config.h win over the build:
    whatever the translation unit had defined under these ten names
    before, after a first inclusion each has exactly the definition the
    header gives it, and no later line of the header changes it again. *)
Theorem unconditional_defines_override_the_build s :
  first_inclusion "CONFIG_H" s ->
  numeric_msc_ver s ->
  exists s',
    config_h sys_header s = Some s' /\
    (forall x m, (x, m) ∈ unconditional_defines -> macros s' !! x = Some m).
Proof.
  intros Hfirst Hver.
  destruct (config_h_total s Hver) as [s' H].
  exists s'. split; [exact H|].
  destruct (config_h_first s s' Hfirst H)
    as (r1 & r2 & r3 & r4 & r5 & r6 & H1 & H2 & H3 & H4 & H5 & H6 & H7).
  destruct (feature_flags_establishes _ _ H3) as [Htls Hthr].
  destruct (uthash_overrides_establishes _ _ H6) as [Hum Huf].
  intros x m Hx. unfold unconditional_defines in Hx.
  repeat (apply elem_of_cons in Hx as [[= -> ->] | Hx]; [rewind|]).
  - injection H1 as <-. simpl. apply lookup_insert_eq.
  - exact Htls.
  - exact Hthr.
  - exact Hum.
  - exact Huf.
  - exact (misc_establishes_UNUSED _ _ H7).
  - exact (misc_establishes_WS_IS_LWS _ _ H7).
  - exact (misc_establishes_WS_IS_BUILTIN _ _ H7).
  - exact (misc_establishes_BROKER_EXPORT _ _ H7).
  - exact (misc_establishes_limit _ _ H7).
  - apply elem_of_nil in Hx. contradiction.
Qed.

End ConfigH.

(** ** PluginSolarMQTT.h and the include guards *)

Section Guards.

Variable sys_header : string -> pp.

Hypothesis basetsd_frame :
  forall x, x ∈ config_names -> preserves (sys_header "basetsd.h") x.

Hypothesis basetsd_total : forall t, is_Some (sys_header "basetsd.h" t).

(** The host's two headers can be included, and they do not [#undef] the
    plugin header's guard. *)
Hypothesis corona_total :
  forall h t, h ∈ ["CoronaLua.h"; "CoronaMacros.h"] -> is_Some (sys_header h t).

Hypothesis corona_keeps_guard :
  forall h s s',
    h ∈ ["CoronaLua.h"; "CoronaMacros.h"] ->
    sys_header h s = Some s' ->
    is_defined "_PluginSolarMQTT_H__" s = true ->
    is_defined "_PluginSolarMQTT_H__" s' = true.

(** PluginSolarMQTT.h translates whenever the two host headers do. *)
Lemma PluginSolarMQTT_h_total s : is_Some (PluginSolarMQTT_h sys_header s).
Proof.
  unfold PluginSolarMQTT_h, pp_ifndef, pp_if, c_not, c_defined. simpl.
  destruct (is_defined "_PluginSolarMQTT_H__" s); simpl; [eauto|].
  unfold include_sys.
  match goal with
  | |- context [sys_header "CoronaLua.h" ?t] =>
      destruct (corona_total "CoronaLua.h" t ltac:(decide_names)) as [t2 ->]
  end.
  simpl.
  destruct (corona_total "CoronaMacros.h" t2 ltac:(decide_names)) as [t3 ->].
  simpl. eauto.
Qed.

Lemma PluginSolarMQTT_h_again s :
  is_defined "_PluginSolarMQTT_H__" s = true ->
  PluginSolarMQTT_h sys_header s = Some s.
Proof.
  intros H. unfold PluginSolarMQTT_h, pp_ifndef, pp_if, c_not, c_defined.
  simpl. rewrite H. reflexivity.
Qed.

Lemma PluginSolarMQTT_h_first s s' :
  first_inclusion "_PluginSolarMQTT_H__" s ->
  PluginSolarMQTT_h sys_header s = Some s' ->
  exists t1 t2 t3,
    define "_PluginSolarMQTT_H__" flag s = Some t1 /\
    sys_header "CoronaLua.h" t1 = Some t2 /\
    sys_header "CoronaMacros.h" t2 = Some t3 /\
    declare luaopen_plugin_solarmqtt t3 = Some s'.
Proof.
  intros Hfirst H. unfold PluginSolarMQTT_h, pp_ifndef in H.
  apply pp_if_inv in H as (b & Hb & H).
  unfold c_not, c_defined in Hb. simpl in Hb.
  rewrite (proj2 (is_defined_false _ _) Hfirst) in Hb.
  injection Hb as <-. simpl negb in H. cbv iota in H.
  apply pp_group_cons_inv in H as (t1 & H1 & H).
  apply pp_group_cons_inv in H as (t2 & H2 & H).
  apply pp_group_cons_inv in H as (t3 & H3 & H).
  apply pp_group_cons_inv in H as (t4 & H4 & H).
  injection H as <-.
  exists t1, t2, t3. repeat split; assumption.
Qed.

Lemma PluginSolarMQTT_h_sets_guard s s' :
  PluginSolarMQTT_h sys_header s = Some s' ->
  is_defined "_PluginSolarMQTT_H__" s' = true.
Proof.
  intros H. destruct (macros s !! "_PluginSolarMQTT_H__") as [m|] eqn:E.
  - assert (Hd : is_defined "_PluginSolarMQTT_H__" s = true)
      by (apply is_defined_true; eauto).
    rewrite (PluginSolarMQTT_h_again s Hd) in H. injection H as <-. exact Hd.
  - destruct (PluginSolarMQTT_h_first s s' E H)
      as (t1 & t2 & t3 & H1 & H2 & H3 & H4).
    injection H4 as <-. unfold is_defined. simpl.
    change (is_defined "_PluginSolarMQTT_H__" t3 = true).
    apply (corona_keeps_guard "CoronaMacros.h" t2 t3); [decide_names|exact H3|].
    apply (corona_keeps_guard "CoronaLua.h" t1 t2); [decide_names|exact H2|].
    injection H1 as <-. unfold is_defined. simpl.
    rewrite lookup_insert_eq. reflexivity.
Qed.

(** C3. On its first inclusion PluginSolarMQTT.h translates: it sets its
    guard, pulls in
    the two host headers, and then adds exactly one declaration of its
    own: the function luaopen_plugin_solarmqtt, returning int and taking
    one lua_State pointer.  Its name is the symbol the Lua host looks up
    for the module name plugin.solarmqtt. *)
Theorem plugin_header_single_entry_point s :
  first_inclusion "_PluginSolarMQTT_H__" s ->
  exists s' t,
    PluginSolarMQTT_h sys_header s = Some s' /\
    pp_group [ define "_PluginSolarMQTT_H__" flag;
               include_sys sys_header "CoronaLua.h";
               include_sys sys_header "CoronaMacros.h" ] s = Some t /\
    macros s' = macros t /\
    decls s' =
      (decls t ++ [ DFun ["CORONA_EXPORT"] CInt "luaopen_plugin_solarmqtt"
                         [(CPtr (CNamed "lua_State"), "L")] ])%list /\
    luaopen_symbol "plugin.solarmqtt" = Some "luaopen_plugin_solarmqtt".
Proof.
  intros Hfirst.
  destruct (PluginSolarMQTT_h_total s) as [s' H].
  destruct (PluginSolarMQTT_h_first s s' Hfirst H)
    as (t1 & t2 & t3 & H1 & H2 & H3 & H4).
  exists s', t3. split; [exact H|]. split.
  - rewrite pp_group_cons, H1. simpl. unfold include_sys.
    rewrite H2. simpl. rewrite H3. reflexivity.
  - injection H4 as <-. repeat split.
Qed.

(** C9. Both headers are idempotent.  A successful inclusion leaves the
    header's guard macro defined (CONFIG_H, _PluginSolarMQTT_H__); with
    the guard defined an inclusion returns the translation unit
    unchanged, macros and declarations alike; so a second inclusion
    right after the first yields the state of the first. *)
Theorem include_guards_idempotent s s' :
  (config_h sys_header s = Some s' ->
     is_defined "CONFIG_H" s' = true /\
     config_h sys_header s' = Some s') /\
  (PluginSolarMQTT_h sys_header s = Some s' ->
     is_defined "_PluginSolarMQTT_H__" s' = true /\
     PluginSolarMQTT_h sys_header s' = Some s') /\
  (is_defined "CONFIG_H" s = true -> config_h sys_header s = Some s) /\
  (is_defined "_PluginSolarMQTT_H__" s = true ->
     PluginSolarMQTT_h sys_header s = Some s).
Proof.
  split; [|split; [|split]].
  - intros H. split.
    + exact (config_h_sets_guard sys_header basetsd_frame s s' H).
    + exact (config_h_idempotent sys_header basetsd_frame s s' H).
  - intros H. pose proof (PluginSolarMQTT_h_sets_guard s s' H) as Hg.
    split; [exact Hg | exact (PluginSolarMQTT_h_again s' Hg)].
  - apply config_h_again.
  - apply PluginSolarMQTT_h_again.
Qed.

(** X11. PluginSolarMQTT.h defines no macro but its guard: any other
    name that the two host headers leave alone has the same definition
    after the inclusion as before, so the settings of config.h survive the
    plugin header. *)
Theorem plugin_header_writes_only_its_guard s x :
  first_inclusion "_PluginSolarMQTT_H__" s ->
  x <> "_PluginSolarMQTT_H__" ->
  preserves (sys_header "CoronaLua.h") x ->
  preserves (sys_header "CoronaMacros.h") x ->
  exists s',
    PluginSolarMQTT_h sys_header s = Some s' /\
    macros s' !! x = macros s !! x.
Proof.
  intros Hfirst Hne Hlua Hmac.
  destruct (PluginSolarMQTT_h_total s) as [s' H].
  exists s'. split; [exact H|].
  destruct (PluginSolarMQTT_h_first s s' Hfirst H)
    as (t1 & t2 & t3 & H1 & H2 & H3 & H4).
  rewrite (preserves_declare x _ _ _ H4), (Hmac _ _ H3), (Hlua _ _ H2).
  apply (preserves_define x _ _ Hne _ _ H1).
Qed.

(** X12. The two headers use different guards and neither writes the
    other's: after config.h the plugin header is still due for its first
    inclusion, and after the plugin header config.h is, provided the
    included system and host headers leave the two guard names alone. *)
Theorem headers_do_not_shadow_each_other s :
  first_inclusion "CONFIG_H" s ->
  first_inclusion "_PluginSolarMQTT_H__" s ->
  numeric_msc_ver s ->
  preserves (sys_header "basetsd.h") "_PluginSolarMQTT_H__" ->
  preserves (sys_header "CoronaLua.h") "CONFIG_H" ->
  preserves (sys_header "CoronaMacros.h") "CONFIG_H" ->
  (exists s', config_h sys_header s = Some s' /\
              first_inclusion "_PluginSolarMQTT_H__" s') /\
  (exists s', PluginSolarMQTT_h sys_header s = Some s' /\
              first_inclusion "CONFIG_H" s').
Proof.
  intros Hc Hp Hver Hsys Hlua Hmac. split.
  - destruct (config_h_total sys_header basetsd_total s Hver) as [s' H].
    exists s'. split; [exact H|]. unfold first_inclusion.
    rewrite (config_h_frame sys_header s s' "_PluginSolarMQTT_H__" Hc H
               ltac:(decide_names) Hsys).
    exact Hp.
  - destruct (PluginSolarMQTT_h_total s) as [s' H].
    exists s'. split; [exact H|].
    destruct (PluginSolarMQTT_h_first s s' Hp H)
      as (t1 & t2 & t3 & H1 & H2 & H3 & H4).
    unfold first_inclusion.
    rewrite (preserves_declare "CONFIG_H" _ _ _ H4), (Hmac _ _ H3),
      (Hlua _ _ H2).
    rewrite (preserves_define "CONFIG_H" "_PluginSolarMQTT_H__" flag
               ltac:(discriminate) _ _ H1).
    exact Hc.
Qed.

End Guards.

(** ** config.h away from Windows *)

Lemma compat_win32_without_include h1 h2 s :
  is_defined "WIN32" s && is_defined "_MSC_VER" s = false ->
  compat_win32 h1 s = compat_win32 h2 s.
Proof.
  intros Hc. unfold compat_win32, pp_ifdef, pp_if, c_defined. simpl.
  destruct (is_defined "WIN32" s); simpl; [|reflexivity].
  simpl in Hc. unfold is_defined in Hc |- *. simpl.
  rewrite !lookup_insert_ne by discriminate.
  destruct (macros s !! "_MSC_VER"); [discriminate | reflexivity].
Qed.

(** X5. <basetsd.h> is the only file config.h includes, and it is reached
    only with WIN32 and _MSC_VER both defined.  Everywhere else config.h
    is self-contained: its outcome, success or failure and the resulting
    translation unit, is the same under any two assignments of contents to
    the system headers. *)
Theorem config_h_self_contained_off_msvc_windows h1 h2 s :
  is_defined "WIN32" s && is_defined "_MSC_VER" s = false ->
  config_h h1 s = config_h h2 s.
Proof.
  intros Hc. unfold config_h, pp_ifndef, pp_if, c_not, c_defined. simpl.
  destruct (is_defined "CONFIG_H" s); simpl; [reflexivity|].
  destruct (platform_options
              (mkTu (<["CONFIG_H" := flag]> (macros s)) (decls s)))
    as [r2|] eqn:H2; simpl; [|reflexivity].
  destruct (compat_msvc
              (mkTu (<["WITH_THREADING" := flag]>
                       (<["WITH_TLS" := flag]> (macros r2))) (decls r2)))
    as [r4|] eqn:H4; simpl; [|reflexivity].
  rewrite (compat_win32_without_include h1 h2 r4); [reflexivity|].
  assert (Ew : is_defined "WIN32" r4 = is_defined "WIN32" s).
  { apply is_defined_ext.
    rewrite (compat_msvc_preserves "WIN32" ltac:(decide_names) _ _ H4).
    simpl. rewrite !lookup_insert_ne by discriminate.
    rewrite (platform_options_preserves "WIN32" ltac:(decide_names) _ _ H2).
    simpl. apply lookup_insert_ne. discriminate. }
  assert (Em : is_defined "_MSC_VER" r4 = is_defined "_MSC_VER" s).
  { apply is_defined_ext.
    rewrite (compat_msvc_preserves "_MSC_VER" ltac:(decide_names) _ _ H4).
    simpl. rewrite !lookup_insert_ne by discriminate.
    rewrite (platform_options_preserves "_MSC_VER" ltac:(decide_names) _ _ H2).
    simpl. apply lookup_insert_ne. discriminate. }
  rewrite Ew, Em. exact Hc.
Qed.

(** ** Topic segments *)

Lemma split_topic_nonempty t : split_topic t <> [].
Proof.
  destruct t as [|c rest]; simpl; [discriminate|].
  destruct (Ascii.eqb c "/"); [discriminate|].
  destruct (split_topic rest); discriminate.
Qed.

(** A topic has one segment more than it has slashes. *)
Lemma segment_count_slashes t : segment_count t = S (count_slashes t).
Proof.
  unfold segment_count. induction t as [|c rest IH]; simpl; [reflexivity|].
  destruct (Ascii.eqb c "/"); simpl.
  - rewrite IH. reflexivity.
  - destruct (split_topic rest) as [|seg segs] eqn:E.
    + exfalso. exact (split_topic_nonempty rest E).
    + simpl in *. exact IH.
Qed.

Lemma join_topic_char c seg segs :
  join_topic (String c seg :: segs) = String c (join_topic (seg :: segs)).
Proof. destruct segs; reflexivity. Qed.

Lemma join_topic_empty segs :
  segs <> [] -> join_topic (EmptyString :: segs) = String "/" (join_topic segs).
Proof. destruct segs; [contradiction | reflexivity]. Qed.

(** Splitting loses nothing: joining the segments with slashes gives the
    topic back. *)
Lemma join_split_topic t : join_topic (split_topic t) = t.
Proof.
  induction t as [|c rest IH]; [reflexivity|].
  pose proof (split_topic_nonempty rest) as Hne.
  cbn [split_topic]. destruct (Ascii.eqb_spec c "/") as [->|Hc].
  - rewrite join_topic_empty by exact Hne. rewrite IH. reflexivity.
  - destruct (split_topic rest) as [|seg segs]; [contradiction|].
    rewrite join_topic_char, IH. reflexivity.
Qed.

Lemma count_slashes_slashes n : count_slashes (slashes n) = n.
Proof. induction n as [|n IH]; simpl; [reflexivity | rewrite IH; reflexivity]. Qed.

(** ** The stand-in system headers meet the assumptions *)

Lemma sample_basetsd_frame :
  forall x, x ∈ config_names -> preserves (sample_sys_header "basetsd.h") x.
Proof.
  intros x Hx.
  assert (Hout : "_BASETSD_H_" ∉ config_names) by decide_names.
  assert (Hne : x <> "_BASETSD_H_") by congruence.
  change (sample_sys_header "basetsd.h")
    with (pp_group [ define "_BASETSD_H_" flag;
                     declare (DTypedef (CNamed "LONG_PTR") "SSIZE_T") ]).
  frame.
Qed.

Lemma sample_corona_keeps_guard :
  forall h s s',
    h ∈ ["CoronaLua.h"; "CoronaMacros.h"] ->
    sample_sys_header h s = Some s' ->
    is_defined "_PluginSolarMQTT_H__" s = true ->
    is_defined "_PluginSolarMQTT_H__" s' = true.
Proof.
  intros h s s' Hh H Hg.
  etransitivity; [|exact Hg]. apply is_defined_ext.
  repeat (apply elem_of_cons in Hh as [-> | Hh];
          [ injection H as <-; simpl;
            rewrite !lookup_insert_ne by discriminate; reflexivity |]).
  apply elem_of_nil in Hh. contradiction.
Qed.

Lemma sample_basetsd_total t : is_Some (sample_sys_header "basetsd.h" t).
Proof. simpl. eauto. Qed.

Lemma sample_corona_total h t :
  h ∈ ["CoronaLua.h"; "CoronaMacros.h"] -> is_Some (sample_sys_header h t).
Proof.
  intros Hh.
  repeat (apply elem_of_cons in Hh as [-> | Hh]; [simpl; eauto|]).
  apply elem_of_nil in Hh. contradiction.
Qed.

Lemma numeric_msc_ver_absent s :
  macros s !! "_MSC_VER" = None -> numeric_msc_ver s.
Proof. intros H. left. exact H. Qed.

Lemma numeric_msc_ver_literal s v :
  macros s !! "_MSC_VER" = Some (ObjMacro [TNum v]) -> numeric_msc_ver s.
Proof. intros H. right. exists v. exact H. Qed.

(** ** Running the model *)

Example if_operand_follows_aliases :
  if_operand (list_to_map [("A", alias "B"); ("B", ObjMacro [TNum 1800])]) "A"
    = Some 1800%N.
Proof. vm_compute. reflexivity. Qed.

Example if_operand_self_reference :
  if_operand (list_to_map [("A", alias "B"); ("B", alias "A")]) "A"
    = Some 0%N.
Proof. vm_compute. reflexivity. Qed.

Example if_operand_empty_body :
  if_operand (list_to_map [("A", flag)]) "A" = None.
Proof. vm_compute. reflexivity. Qed.

Example if_value_wraps_at_64_bits :
  if_value 18446744073709551615 = 18446744073709551615%N /\
  if_value 18446744073709551616 = 0%N /\
  if_value 18446744073709553416 = 1800%N.
Proof. vm_compute. repeat split; reflexivity. Qed.

Example oversized_msc_ver_counts_as_old_msvc :
  macros (after_config oversized_msc_ver_tu) !! "EPROTO"
    = Some (alias "ECONNABORTED").
Proof. vm_compute. reflexivity. Qed.

Example linux_has_pthread_cancel :
  is_defined "HAVE_PTHREAD_CANCEL" (after_config linux_tu) = true.
Proof. vm_compute. reflexivity. Qed.

Example android_lacks_pthread_cancel :
  is_defined "HAVE_PTHREAD_CANCEL" (after_config android_tu) = false.
Proof. vm_compute. reflexivity. Qed.

Example macos_darwin_source :
  is_defined "__DARWIN_C_SOURCE" (after_config macos_tu) = true /\
  is_defined "HAVE_NETINET_IN_H" (after_config macos_tu) = false.
Proof. vm_compute. split; reflexivity. Qed.

Example msvc2015_keeps_errno_names :
  macros (after_config msvc2015_tu) !! "EPROTO" = None /\
  macros (after_config msvc2015_tu) !! "strcasecmp" = Some (alias "_stricmp") /\
  macros (after_config msvc2015_tu) !! "HAVE_PTHREAD_CANCEL" = None.
Proof. vm_compute. repeat split; reflexivity. Qed.

Example msvc2015_declares_ssize_t :
  decls (after_config msvc2015_tu)
    = [ DTypedef (CNamed "LONG_PTR") "SSIZE_T";
        DTypedef (CNamed "SSIZE_T") "ssize_t" ].
Proof. vm_compute. reflexivity. Qed.

Example linux_declares_nothing : decls (after_config linux_tu) = [].
Proof. vm_compute. reflexivity. Qed.

Example topic_of_three_segments :
  split_topic "a/b/c" = ["a"; "b"; "c"] /\
  topic_hierarchy_check (after_config linux_tu) "a/b/c" = Some TopicAccepted.
Proof. vm_compute. split; reflexivity. Qed.

Example topic_at_the_limit :
  segment_count (slashes 199) = 200 /\
  topic_hierarchy_check (after_config linux_tu) (slashes 199)
    = Some TopicAccepted.
Proof. vm_compute. split; reflexivity. Qed.

Example unused_macro_casts_to_void :
  expand_once (after_config linux_tu) "UNUSED" [[TId "userdata"]]
    = Some [TLParen; TId "void"; TRParen; TLParen; TId "userdata"; TRParen].
Proof. vm_compute. reflexivity. Qed.

Example wrong_argument_count_is_rejected :
  expand_once (after_config linux_tu) "uthash_free" [[TId "el"]] = None.
Proof. vm_compute. reflexivity. Qed.

(** ** The theorems at work on concrete platforms *)

(** Visual Studio 2015 on Windows: the profile is TLS and threading. *)
Lemma config_h_feature_profile_witness :
  first_inclusion "CONFIG_H" msvc2015_tu /\
  numeric_msc_ver msvc2015_tu /\
  exists s',
    config_h sample_sys_header msvc2015_tu = Some s' /\
    profile_of s' = minimal_profile.
Proof.
  assert (H1 : first_inclusion "CONFIG_H" msvc2015_tu)
    by (vm_compute; reflexivity).
  assert (H2 : numeric_msc_ver msvc2015_tu)
    by (apply (numeric_msc_ver_literal _ 1900%N); vm_compute; reflexivity).
  split; [exact H1 | split; [exact H2|]].
  destruct (config_h_feature_profile sample_sys_header sample_basetsd_frame
              sample_basetsd_total msvc2015_tu H1 H2)
    as (s' & H & _ & _ & _ & Hp).
  exists s'. split; [exact H|]. apply Hp.
  intros x Hx. unfold disabled_features in Hx.
  repeat (apply elem_of_cons in Hx as [-> | Hx]; [vm_compute; reflexivity|]).
  apply elem_of_nil in Hx. contradiction.
Defined.

(** Linux: a topic of 200 slashes has 201 segments and is rejected. *)
Lemma topic_hierarchy_limit_is_200_witness :
  first_inclusion "CONFIG_H" linux_tu /\
  numeric_msc_ver linux_tu /\
  200 < segment_count (slashes 200) /\
  exists s',
    config_h sample_sys_header linux_tu = Some s' /\
    topic_hierarchy_check s' (slashes 200) = Some InvalidTopic.
Proof.
  assert (H1 : first_inclusion "CONFIG_H" linux_tu)
    by (vm_compute; reflexivity).
  assert (H2 : numeric_msc_ver linux_tu)
    by (apply numeric_msc_ver_absent; vm_compute; reflexivity).
  assert (H3 : 200 < segment_count (slashes 200)).
  { rewrite segment_count_slashes, count_slashes_slashes. lia. }
  split; [exact H1 | split; [exact H2 | split; [exact H3|]]].
  destruct (topic_hierarchy_limit_is_200 sample_sys_header
              sample_basetsd_total linux_tu H1 H2)
    as (s' & H & _ & _ & _ & Hrej).
  exists s'. split; [exact H | exact (Hrej _ H3)].
Defined.

(** Visual Studio 2013 on Windows: strerror_r(errnum, buf, 256) becomes
    strerror_s(buf, 256, errnum). *)
Lemma win32_string_function_names_witness :
  first_inclusion "CONFIG_H" msvc2013_tu /\
  numeric_msc_ver msvc2013_tu /\
  is_defined "WIN32" msvc2013_tu = true /\
  exists s',
    config_h sample_sys_header msvc2013_tu = Some s' /\
    expand_once s' "strerror_r" [[TId "errnum"]; [TId "buf"]; [TNum 256]]
      = Some [TId "strerror_s"; TLParen; TId "buf"; TComma; TNum 256; TComma;
              TId "errnum"; TRParen].
Proof.
  assert (H1 : first_inclusion "CONFIG_H" msvc2013_tu)
    by (vm_compute; reflexivity).
  assert (H2 : numeric_msc_ver msvc2013_tu)
    by (apply (numeric_msc_ver_literal _ 1800%N); vm_compute; reflexivity).
  assert (H3 : is_defined "WIN32" msvc2013_tu = true)
    by (vm_compute; reflexivity).
  split; [exact H1 | split; [exact H2 | split; [exact H3|]]].
  destruct (win32_string_function_names sample_sys_header sample_basetsd_frame
              sample_basetsd_total msvc2013_tu H1 H2)
    as (s' & H & Hwin & _).
  exists s'. split; [exact H|].
  destruct (Hwin H3) as (_ & _ & _ & Herr). apply Herr.
Defined.

(** Linux: uthash_free applied to [el] and the size of what it points to
    becomes mosquitto_free(el). *)
Lemma uthash_uses_mosquitto_allocator_witness :
  first_inclusion "CONFIG_H" linux_tu /\
  numeric_msc_ver linux_tu /\
  exists s',
    config_h sample_sys_header linux_tu = Some s' /\
    expand_once s' "uthash_free"
        [[TId "el"];
         [TId "sizeof"; TLParen; TPunct "*"; TId "el"; TRParen]]
      = Some [TId "mosquitto_free"; TLParen; TId "el"; TRParen].
Proof.
  assert (H1 : first_inclusion "CONFIG_H" linux_tu)
    by (vm_compute; reflexivity).
  assert (H2 : numeric_msc_ver linux_tu)
    by (apply numeric_msc_ver_absent; vm_compute; reflexivity).
  split; [exact H1 | split; [exact H2|]].
  destruct (uthash_uses_mosquitto_allocator sample_sys_header
              sample_basetsd_total linux_tu H1 H2)
    as (s' & H & _ & Hfree).
  exists s'. split; [exact H | apply Hfree].
Defined.

(** Linux is neither Android nor Windows: HAVE_PTHREAD_CANCEL is defined. *)
Lemma have_pthread_cancel_witness :
  first_inclusion "CONFIG_H" linux_tu /\
  numeric_msc_ver linux_tu /\
  macros linux_tu !! "HAVE_PTHREAD_CANCEL" = None /\
  exists s',
    config_h sample_sys_header linux_tu = Some s' /\
    is_defined "HAVE_PTHREAD_CANCEL" s' = true.
Proof.
  assert (H1 : first_inclusion "CONFIG_H" linux_tu)
    by (vm_compute; reflexivity).
  assert (H2 : numeric_msc_ver linux_tu)
    by (apply numeric_msc_ver_absent; vm_compute; reflexivity).
  assert (H3 : macros linux_tu !! "HAVE_PTHREAD_CANCEL" = None)
    by (vm_compute; reflexivity).
  split; [exact H1 | split; [exact H2 | split; [exact H3|]]].
  destruct (have_pthread_cancel_iff_not_android_nor_win32 sample_sys_header
              sample_basetsd_frame sample_basetsd_total linux_tu H1 H2)
    as (s' & H & _ & Hiff).
  exists s'. split; [exact H|].
  apply (proj2 (Hiff H3)). split; vm_compute; reflexivity.
Defined.

(** Visual Studio 2013: snprintf becomes sprintf_s and ENOTCONN falls back
    to the Winsock code. *)
Lemma msvc_before_1900_compat_witness :
  first_inclusion "CONFIG_H" msvc2013_tu /\
  numeric_msc_ver msvc2013_tu /\
  macros msvc2013_tu !! "_MSC_VER" = Some (ObjMacro [TNum 1800]) /\
  (1800 < 1900)%N /\
  exists s',
    config_h sample_sys_header msvc2013_tu = Some s' /\
    expand_once s' "snprintf" [] = Some [TId "sprintf_s"] /\
    macros s' !! "ENOTCONN" = Some (alias "WSAENOTCONN").
Proof.
  assert (H1 : first_inclusion "CONFIG_H" msvc2013_tu)
    by (vm_compute; reflexivity).
  assert (H3 : macros msvc2013_tu !! "_MSC_VER" = Some (ObjMacro [TNum 1800]))
    by (vm_compute; reflexivity).
  assert (H2 : numeric_msc_ver msvc2013_tu)
    by (exact (numeric_msc_ver_literal _ _ H3)).
  assert (H4 : (1800 < 1900)%N) by lia.
  split; [exact H1 | split; [exact H2 | split; [exact H3 | split; [exact H4|]]]].
  destruct (msvc_before_1900_compat sample_sys_header sample_basetsd_frame
              sample_basetsd_total msvc2013_tu H1 H2)
    as (s' & H & Hold & _).
  destruct (Hold 1800%N H3 H4) as (Hsn & _ & Hws).
  exists s'. split; [exact H | split; [exact Hsn|]].
  rewrite (Hws "ENOTCONN" "WSAENOTCONN") by decide_names.
  vm_compute. reflexivity.
Defined.

(** Linux: the plugin header adds its one declaration after the host's. *)
Lemma plugin_header_single_entry_point_witness :
  first_inclusion "_PluginSolarMQTT_H__" linux_tu /\
  exists s',
    PluginSolarMQTT_h sample_sys_header linux_tu = Some s' /\
    decls s' =
      [ DTypedef (CNamed "struct lua_State") "lua_State";
        DFun ["CORONA_EXPORT"] CInt "luaopen_plugin_solarmqtt"
             [(CPtr (CNamed "lua_State"), "L")] ].
Proof.
  assert (H1 : first_inclusion "_PluginSolarMQTT_H__" linux_tu)
    by (vm_compute; reflexivity).
  split; [exact H1|].
  destruct (plugin_header_single_entry_point sample_sys_header
              sample_corona_total linux_tu H1)
    as (s' & t & H & Ht & _ & Hd & _).
  exists s'. split; [exact H|]. rewrite Hd.
  injection Ht as <-. reflexivity.
Defined.

(** macOS: including either header again changes nothing. *)
Lemma include_guards_idempotent_witness :
  config_h sample_sys_header macos_tu = Some (after_config macos_tu) /\
  config_h sample_sys_header (after_config macos_tu)
    = Some (after_config macos_tu) /\
  PluginSolarMQTT_h sample_sys_header macos_tu = Some (after_plugin macos_tu) /\
  PluginSolarMQTT_h sample_sys_header (after_plugin macos_tu)
    = Some (after_plugin macos_tu).
Proof.
  assert (H1 : config_h sample_sys_header macos_tu
               = Some (after_config macos_tu))
    by (vm_compute; reflexivity).
  assert (H2 : PluginSolarMQTT_h sample_sys_header macos_tu
               = Some (after_plugin macos_tu))
    by (vm_compute; reflexivity).
  pose proof (include_guards_idempotent sample_sys_header sample_basetsd_frame
                sample_corona_keeps_guard macos_tu (after_config macos_tu))
    as (Hc & _).
  pose proof (include_guards_idempotent sample_sys_header sample_basetsd_frame
                sample_corona_keeps_guard macos_tu (after_plugin macos_tu))
    as (_ & Hp & _).
  split; [exact H1 | split; [exact (proj2 (Hc H1)) | split; [exact H2|]]].
  exact (proj2 (Hp H2)).
Defined.

(** ** The further properties on concrete platforms *)

Lemma sample_basetsd_preserves x :
  x <> "_BASETSD_H_" -> preserves (sample_sys_header "basetsd.h") x.
Proof.
  intros Hne.
  change (sample_sys_header "basetsd.h")
    with (pp_group [ define "_BASETSD_H_" flag;
                     declare (DTypedef (CNamed "LONG_PTR") "SSIZE_T") ]).
  frame.
Qed.

Lemma sample_basetsd_keeps x :
  keeps_defined (sample_sys_header "basetsd.h") x.
Proof.
  change (sample_sys_header "basetsd.h")
    with (pp_group [ define "_BASETSD_H_" flag;
                     declare (DTypedef (CNamed "LONG_PTR") "SSIZE_T") ]).
  keep.
Qed.

Lemma sample_corona_preserves h x :
  h ∈ ["CoronaLua.h"; "CoronaMacros.h"] ->
  x ∉ ["_CoronaLua_H__"; "_CoronaMacros_H__"; "CORONA_EXPORT"] ->
  preserves (sample_sys_header h) x.
Proof.
  intros Hh Hx. split_notin Hx.
  apply elem_of_cons in Hh as [-> | Hh].
  - change (sample_sys_header "CoronaLua.h")
      with (pp_group
              [ define "_CoronaLua_H__" flag;
                declare (DTypedef (CNamed "struct lua_State") "lua_State") ]).
    frame.
  - apply elem_of_cons in Hh as [-> | Hh];
      [|apply elem_of_nil in Hh; contradiction].
    change (sample_sys_header "CoronaMacros.h")
      with (pp_group
              [ define "_CoronaMacros_H__" flag;
                define "CORONA_EXPORT" (ObjMacro [TId "extern"]) ]).
    frame.
Qed.

(** FreeBSD gets HAVE_NETINET_IN_H and not __DARWIN_C_SOURCE. *)
Lemma platform_options_by_system_witness :
  first_inclusion "CONFIG_H" freebsd_tu /\
  numeric_msc_ver freebsd_tu /\
  exists s',
    config_h sample_sys_header freebsd_tu = Some s' /\
    macros s' !! "HAVE_NETINET_IN_H" = Some flag /\
    is_defined "__DARWIN_C_SOURCE" s' && is_defined "HAVE_NETINET_IN_H" s'
      = false.
Proof.
  assert (H1 : first_inclusion "CONFIG_H" freebsd_tu)
    by (vm_compute; reflexivity).
  assert (H2 : numeric_msc_ver freebsd_tu)
    by (apply numeric_msc_ver_absent; vm_compute; reflexivity).
  split; [exact H1 | split; [exact H2|]].
  destruct (platform_options_by_system sample_sys_header sample_basetsd_frame
              sample_basetsd_total freebsd_tu H1 H2)
    as (s' & H & _ & Hn & Hex).
  exists s'. split; [exact H|]. split.
  - rewrite Hn. vm_compute. reflexivity.
  - apply Hex; vm_compute; reflexivity.
Defined.

(** An application macro of the build passes through config.h untouched. *)
Lemma config_h_writes_only_its_defines_witness :
  first_inclusion "CONFIG_H" overriding_tu /\
  numeric_msc_ver overriding_tu /\
  ("MY_APP" ∉ config_defines) /\
  exists s',
    config_h sample_sys_header overriding_tu = Some s' /\
    macros s' !! "MY_APP" = Some flag.
Proof.
  assert (H1 : first_inclusion "CONFIG_H" overriding_tu)
    by (vm_compute; reflexivity).
  assert (H2 : numeric_msc_ver overriding_tu)
    by (apply numeric_msc_ver_absent; vm_compute; reflexivity).
  assert (H3 : "MY_APP" ∉ config_defines) by decide_names.
  split; [exact H1 | split; [exact H2 | split; [exact H3|]]].
  destruct (config_h_writes_only_its_defines sample_sys_header
              sample_basetsd_total overriding_tu H1 H2)
    as (s' & H & Hframe).
  exists s'. split; [exact H|].
  rewrite (Hframe "MY_APP" H3
             (sample_basetsd_preserves "MY_APP" ltac:(discriminate))).
  vm_compute. reflexivity.
Defined.

(** Visual Studio 2015: WIN32 is still defined after config.h. *)
Lemma config_h_never_undefines_witness :
  numeric_msc_ver msvc2015_tu /\
  is_defined "WIN32" msvc2015_tu = true /\
  exists s',
    config_h sample_sys_header msvc2015_tu = Some s' /\
    is_defined "WIN32" s' = true.
Proof.
  assert (H1 : numeric_msc_ver msvc2015_tu)
    by (apply (numeric_msc_ver_literal _ 1900%N); vm_compute; reflexivity).
  assert (H2 : is_defined "WIN32" msvc2015_tu = true)
    by (vm_compute; reflexivity).
  split; [exact H1 | split; [exact H2|]].
  exact (config_h_never_undefines sample_sys_header sample_basetsd_total
           msvc2015_tu "WIN32" H1 (sample_basetsd_keeps "WIN32") H2).
Defined.

(** Visual Studio 2015 gets the typedef after those of <basetsd.h>; MinGW,
    with WIN32 but no _MSC_VER, gets no declaration. *)
Lemma ssize_t_typedef_witness :
  (first_inclusion "CONFIG_H" msvc2015_tu /\
   numeric_msc_ver msvc2015_tu /\
   is_defined "WIN32" msvc2015_tu = true /\
   is_defined "_MSC_VER" msvc2015_tu = true /\
   exists s',
     config_h sample_sys_header msvc2015_tu = Some s' /\
     decls s' = [ DTypedef (CNamed "LONG_PTR") "SSIZE_T"; ssize_t_typedef ]) /\
  (first_inclusion "CONFIG_H" mingw_tu /\
   numeric_msc_ver mingw_tu /\
   is_defined "WIN32" mingw_tu && is_defined "_MSC_VER" mingw_tu = false /\
   exists s',
     config_h sample_sys_header mingw_tu = Some s' /\ decls s' = []).
Proof.
  split.
  - assert (H1 : first_inclusion "CONFIG_H" msvc2015_tu)
      by (vm_compute; reflexivity).
    assert (H2 : numeric_msc_ver msvc2015_tu)
      by (apply (numeric_msc_ver_literal _ 1900%N); vm_compute; reflexivity).
    assert (H3 : is_defined "WIN32" msvc2015_tu = true)
      by (vm_compute; reflexivity).
    assert (H4 : is_defined "_MSC_VER" msvc2015_tu = true)
      by (vm_compute; reflexivity).
    split; [exact H1 | split; [exact H2 | split; [exact H3 | split; [exact H4|]]]].
    destruct (ssize_t_typedef_needs_WIN32_and_MSC_VER sample_sys_header
                sample_basetsd_total msvc2015_tu H1 H2)
      as (s' & H & _ & Hyes).
    exists s'. split; [exact H|].
    destruct (Hyes H3 H4) as (t & u & Hu & Ht & Hd).
    rewrite Hd. injection Hu as <-. simpl. rewrite Ht. reflexivity.
  - assert (H1 : first_inclusion "CONFIG_H" mingw_tu)
      by (vm_compute; reflexivity).
    assert (H2 : numeric_msc_ver mingw_tu)
      by (apply numeric_msc_ver_absent; vm_compute; reflexivity).
    assert (H3 : is_defined "WIN32" mingw_tu && is_defined "_MSC_VER" mingw_tu
                 = false)
      by (vm_compute; reflexivity).
    split; [exact H1 | split; [exact H2 | split; [exact H3|]]].
    destruct (ssize_t_typedef_needs_WIN32_and_MSC_VER sample_sys_header
                sample_basetsd_total mingw_tu H1 H2)
      as (s' & H & Hno & _).
    exists s'. split; [exact H|]. rewrite (Hno H3). reflexivity.
Defined.

(** Linux: config.h gives the same result with no system header at all. *)
Lemma config_h_self_contained_witness :
  is_defined "WIN32" linux_tu && is_defined "_MSC_VER" linux_tu = false /\
  config_h sample_sys_header linux_tu = config_h no_sys_header linux_tu.
Proof.
  assert (H1 : is_defined "WIN32" linux_tu && is_defined "_MSC_VER" linux_tu
               = false)
    by (vm_compute; reflexivity).
  split; [exact H1|].
  exact (config_h_self_contained_off_msvc_windows sample_sys_header
           no_sys_header linux_tu H1).
Defined.

(** Visual Studio 2013 without errno names of its own: EPROTO leads to
    WSAECONNABORTED. *)
Lemma old_msvc_errno_names_witness :
  first_inclusion "CONFIG_H" msvc2013_tu /\
  macros msvc2013_tu !! "_MSC_VER" = Some (ObjMacro [TNum 1800]) /\
  (1800 < 1900)%N /\
  macros msvc2013_tu !! "ECONNABORTED" = None /\
  exists s',
    config_h sample_sys_header msvc2013_tu = Some s' /\
    expand_once s' "EPROTO" [] = Some [TId "ECONNABORTED"] /\
    expand_once s' "ECONNABORTED" [] = Some [TId "WSAECONNABORTED"].
Proof.
  assert (H1 : first_inclusion "CONFIG_H" msvc2013_tu)
    by (vm_compute; reflexivity).
  assert (H2 : macros msvc2013_tu !! "_MSC_VER" = Some (ObjMacro [TNum 1800]))
    by (vm_compute; reflexivity).
  assert (H3 : (1800 < 1900)%N) by lia.
  assert (H4 : macros msvc2013_tu !! "ECONNABORTED" = None)
    by (vm_compute; reflexivity).
  split; [exact H1 | split; [exact H2 | split; [exact H3 | split; [exact H4|]]]].
  destruct (old_msvc_errno_names_are_defined sample_sys_header
              sample_basetsd_frame sample_basetsd_total msvc2013_tu 1800%N
              H1 H2 H3)
    as (s' & H & He & _ & _ & _ & Ha).
  exists s'. split; [exact H | split; [exact He | exact (Ha H4)]].
Defined.

(** Linux: UNUSED(userdata). *)
Lemma UNUSED_casts_its_argument_to_void_witness :
  first_inclusion "CONFIG_H" linux_tu /\
  numeric_msc_ver linux_tu /\
  exists s',
    config_h sample_sys_header linux_tu = Some s' /\
    expand_once s' "UNUSED" [[TId "userdata"]]
      = Some [TLParen; TId "void"; TRParen; TLParen; TId "userdata"; TRParen].
Proof.
  assert (H1 : first_inclusion "CONFIG_H" linux_tu)
    by (vm_compute; reflexivity).
  assert (H2 : numeric_msc_ver linux_tu)
    by (apply numeric_msc_ver_absent; vm_compute; reflexivity).
  split; [exact H1 | split; [exact H2|]].
  destruct (UNUSED_casts_its_argument_to_void sample_sys_header
              sample_basetsd_total linux_tu H1 H2)
    as (s' & H & Hu).
  exists s'. split; [exact H | apply Hu].
Defined.

(** Linux: the selectors are 1 and 2, the disabled feature is 0. *)
Lemma websocket_selectors_witness :
  first_inclusion "CONFIG_H" linux_tu /\
  numeric_msc_ver linux_tu /\
  macros linux_tu !! "WITH_WEBSOCKETS" = None /\
  exists s',
    config_h sample_sys_header linux_tu = Some s' /\
    if_operand (macros s') "WS_IS_LWS" = Some 1%N /\
    if_operand (macros s') "WS_IS_BUILTIN" = Some 2%N /\
    if_operand (macros s') "WITH_WEBSOCKETS" = Some 0%N.
Proof.
  assert (H1 : first_inclusion "CONFIG_H" linux_tu)
    by (vm_compute; reflexivity).
  assert (H2 : numeric_msc_ver linux_tu)
    by (apply numeric_msc_ver_absent; vm_compute; reflexivity).
  assert (H3 : macros linux_tu !! "WITH_WEBSOCKETS" = None)
    by (vm_compute; reflexivity).
  split; [exact H1 | split; [exact H2 | split; [exact H3|]]].
  exact (websocket_selectors_differ_from_disabled sample_sys_header
           sample_basetsd_frame sample_basetsd_total linux_tu H1 H2 H3).
Defined.

(** A build with an empty _MSC_VER cannot include config.h. *)
Lemma empty_MSC_VER_witness :
  macros empty_msc_ver_tu !! "_MSC_VER" = Some (ObjMacro []) /\
  first_inclusion "CONFIG_H" empty_msc_ver_tu /\
  config_h sample_sys_header empty_msc_ver_tu = None.
Proof.
  assert (H1 : macros empty_msc_ver_tu !! "_MSC_VER" = Some (ObjMacro []))
    by (vm_compute; reflexivity).
  assert (H2 : first_inclusion "CONFIG_H" empty_msc_ver_tu)
    by (vm_compute; reflexivity).
  split; [exact H1 | split; [exact H2|]].
  exact (proj1 (empty_MSC_VER_breaks_first_inclusion sample_sys_header
                  empty_msc_ver_tu H1) H2).
Defined.

(** A build that asks for a limit of 50 still gets 200. *)
Lemma unconditional_defines_witness :
  first_inclusion "CONFIG_H" overriding_tu /\
  numeric_msc_ver overriding_tu /\
  macros overriding_tu !! "TOPIC_HIERARCHY_LIMIT" = Some (ObjMacro [TNum 50]) /\
  exists s',
    config_h sample_sys_header overriding_tu = Some s' /\
    macros s' !! "TOPIC_HIERARCHY_LIMIT" = Some (ObjMacro [TNum 200]) /\
    macros s' !! "WITH_THREADING" = Some flag.
Proof.
  assert (H1 : first_inclusion "CONFIG_H" overriding_tu)
    by (vm_compute; reflexivity).
  assert (H2 : numeric_msc_ver overriding_tu)
    by (apply numeric_msc_ver_absent; vm_compute; reflexivity).
  assert (H3 : macros overriding_tu !! "TOPIC_HIERARCHY_LIMIT"
               = Some (ObjMacro [TNum 50]))
    by (vm_compute; reflexivity).
  split; [exact H1 | split; [exact H2 | split; [exact H3|]]].
  destruct (unconditional_defines_override_the_build sample_sys_header
              sample_basetsd_frame sample_basetsd_total overriding_tu H1 H2)
    as (s' & H & Htab).
  exists s'. split; [exact H|].
  split; apply Htab; unfold unconditional_defines;
    repeat first [ apply list_elem_of_here | apply list_elem_of_further ].
Defined.

(** Linux, after config.h: the plugin header keeps WITH_TLS. *)
Lemma plugin_header_writes_only_its_guard_witness :
  first_inclusion "_PluginSolarMQTT_H__" (after_config linux_tu) /\
  "WITH_TLS" <> "_PluginSolarMQTT_H__" /\
  exists s',
    PluginSolarMQTT_h sample_sys_header (after_config linux_tu) = Some s' /\
    macros s' !! "WITH_TLS" = Some flag.
Proof.
  assert (H1 : first_inclusion "_PluginSolarMQTT_H__" (after_config linux_tu))
    by (vm_compute; reflexivity).
  assert (H2 : "WITH_TLS" <> "_PluginSolarMQTT_H__") by discriminate.
  split; [exact H1 | split; [exact H2|]].
  destruct (plugin_header_writes_only_its_guard sample_sys_header
              sample_corona_total (after_config linux_tu) "WITH_TLS" H1 H2
              (sample_corona_preserves "CoronaLua.h" "WITH_TLS"
                 ltac:(decide_names) ltac:(decide_names))
              (sample_corona_preserves "CoronaMacros.h" "WITH_TLS"
                 ltac:(decide_names) ltac:(decide_names)))
    as (s' & H & Hx).
  exists s'. split; [exact H|]. rewrite Hx. vm_compute. reflexivity.
Defined.

(** macOS: each header still finds the other's guard unset. *)
Lemma headers_do_not_shadow_each_other_witness :
  first_inclusion "CONFIG_H" macos_tu /\
  first_inclusion "_PluginSolarMQTT_H__" macos_tu /\
  numeric_msc_ver macos_tu /\
  (exists s', config_h sample_sys_header macos_tu = Some s' /\
              first_inclusion "_PluginSolarMQTT_H__" s') /\
  (exists s', PluginSolarMQTT_h sample_sys_header macos_tu = Some s' /\
              first_inclusion "CONFIG_H" s').
Proof.
  assert (H1 : first_inclusion "CONFIG_H" macos_tu)
    by (vm_compute; reflexivity).
  assert (H2 : first_inclusion "_PluginSolarMQTT_H__" macos_tu)
    by (vm_compute; reflexivity).
  assert (H3 : numeric_msc_ver macos_tu)
    by (apply numeric_msc_ver_absent; vm_compute; reflexivity).
  split; [exact H1 | split; [exact H2 | split; [exact H3|]]].
  exact (headers_do_not_shadow_each_other sample_sys_header
           sample_basetsd_total sample_corona_total macos_tu H1 H2 H3
           (sample_basetsd_preserves "_PluginSolarMQTT_H__"
              ltac:(discriminate))
           (sample_corona_preserves "CoronaLua.h" "CONFIG_H"
              ltac:(decide_names) ltac:(decide_names))
           (sample_corona_preserves "CoronaMacros.h" "CONFIG_H"
              ltac:(decide_names) ltac:(decide_names))).
Defined.
